(** * TrustLoop issue lifecycle engine: a shallow embedding of backend/server.py

    The development follows the layout of the source file: helper functions
    (anonymity token, role hierarchy, moderation), then the routes
    (submit_feedback, get_my_issues, get_all_issues, get_issue, add_update,
    escalate_issue, check_escalation).  The document store, the wall clock,
    the uuid generator, the digest and the language model are the external
    collaborators; they are gathered in the class [Externals] and the two
    collections of the store are threaded through a state-and-error monad. *)

From Stdlib Require Import ZArith Ascii String Lia.
From stdpp Require Import base decidable option list gmap strings fin_maps.

Open Scope string_scope.

(** ** Python strings

    A Python [str] is a sequence of code points.  A [string] of this
    development holds its UTF-8 encoding, one [ascii] per byte, which is
    also what [s.encode()] yields.  Concatenation, equality, the ordering
    and the substring test of two encoded strings agree with those of the
    strings they encode (UTF-8 keeps the order of code points and no
    encoded character occurs inside another); length and slicing count
    code points and are written out below.  A [str] that has no UTF-8
    encoding (one holding a lone surrogate) is outside the model. *)

Module PyStr.

(** [c.lower()] on one ASCII character: the letters A to Z are lowered. *)
Definition lower_char (c : ascii) : ascii :=
  let n := nat_of_ascii c in
  if (65 <=? n)%nat && (n <=? 90)%nat then ascii_of_nat (n + 32) else c.

(** [s.lower()] restricted to ASCII text.  On other text [str.lower]
    follows the Unicode case tables; see [str_lower] below. *)
Fixpoint ascii_lower (s : string) : string :=
  match s with
  | EmptyString => EmptyString
  | String c s' => String (lower_char c) (ascii_lower s')
  end.

(** [s.isascii()] *)
Fixpoint is_ascii (s : string) : bool :=
  match s with
  | EmptyString => true
  | String c s' => (nat_of_ascii c <? 128)%nat && is_ascii s'
  end.

(** A byte [10xxxxxx] continues the code point begun before it. *)
Definition is_continuation (c : ascii) : bool :=
  let n := nat_of_ascii c in (128 <=? n)%nat && (n <? 192)%nat.

(** [len(s)]: the number of code points. *)
Fixpoint len (s : string) : nat :=
  match s with
  | EmptyString => O
  | String c s' => if is_continuation c then len s' else S (len s')
  end.

(** [s.startswith(p)] *)
Fixpoint startswith (p s : string) : bool :=
  match p, s with
  | EmptyString, _ => true
  | String _ _, EmptyString => false
  | String a p', String b s' => if Ascii.eqb a b then startswith p' s' else false
  end.

(** [needle in hay] on strings: substring containment. *)
Fixpoint contains (needle hay : string) : bool :=
  startswith needle hay ||
  match hay with
  | EmptyString => false
  | String _ hay' => contains needle hay'
  end.

(** [s[:n]]: the first [n] code points, each with all its bytes. *)
Fixpoint slice_to (n : nat) (s : string) : string :=
  match s with
  | EmptyString => EmptyString
  | String c s' =>
      if is_continuation c then String c (slice_to n s')
      else match n with
           | O => EmptyString
           | S n' => String c (slice_to n' s')
           end
  end.

(** [a < b] on strings, by code point, as the store compares them. *)
Definition lt (a b : string) : bool := String.ltb a b.

(** Decimal rendering of [n] on exactly [w] digits (["%0wd"]). *)
Fixpoint zpad (w : nat) (n : Z) : string :=
  match w with
  | O => EmptyString
  | S w' => zpad w' (n / 10) +:+ String (ascii_of_nat (48 + Z.to_nat (n mod 10))) EmptyString
  end.

(** [x or d] for an optional string: [None] and the empty string are falsy. *)
Definition or_default (x : option string) (d : string) : string :=
  match x with
  | Some s => if decide (s = "") then d else s
  | None => d
  end.

End PyStr.

(** ** Python lists *)

Module PyList.

(** [l.index(x)], guarded by [x in l]: position of the first occurrence. *)
Fixpoint index (x : string) (l : list string) : option nat :=
  match l with
  | [] => None
  | y :: l' => if decide (y = x) then Some O else S <$> index x l'
  end.

(** [l[i]] for a Python integer [i]; [None] stands for IndexError. *)
Definition getitem {A} (l : list A) (i : Z) : option A :=
  if (0 <=? i)%Z then l !! Z.to_nat i
  else if (- Z.of_nat (length l) <=? i)%Z then l !! Z.to_nat (Z.of_nat (length l) + i)
  else None.

End PyList.

(** ** datetime (always UTC in the source) *)

Record datetime := mk_datetime {
  year : Z; month : Z; day : Z;
  hour : Z; minute : Z; second : Z; microsecond : Z
}.

Module DateTime.

Definition is_leap (y : Z) : bool :=
  ((y mod 4 =? 0) && (negb (y mod 100 =? 0) || (y mod 400 =? 0)))%Z.

Definition days_in_month (y m : Z) : Z :=
  if (m =? 2)%Z then (if is_leap y then 29 else 28)%Z
  else if ((m =? 4) || (m =? 6) || (m =? 9) || (m =? 11))%Z then 30%Z
  else 31%Z.

Definition with_date (y m d : Z) (t : datetime) : datetime :=
  mk_datetime y m d (hour t) (minute t) (second t) (microsecond t).

(** [t + timedelta(days=1)]; the time of day is kept. *)
Definition next_day (t : datetime) : datetime :=
  if (day t <? days_in_month (year t) (month t))%Z
  then with_date (year t) (month t) (day t + 1) t
  else if (month t <? 12)%Z
  then with_date (year t) (month t + 1) 1 t
  else with_date (year t + 1) 1 1 t.

(** [t + timedelta(days=n)] *)
Definition add_days (n : nat) (t : datetime) : datetime :=
  Nat.iter n next_day t.

(** [t.strftime("%Y%m%d")] *)
Definition strftime_Ymd (t : datetime) : string :=
  PyStr.zpad 4 (year t) +:+ PyStr.zpad 2 (month t) +:+ PyStr.zpad 2 (day t).

(** [t.isoformat()] of an aware UTC datetime; the fraction is dropped
    when the microsecond field is zero. *)
Definition isoformat (t : datetime) : string :=
  PyStr.zpad 4 (year t) +:+ "-" +:+ PyStr.zpad 2 (month t) +:+ "-" +:+
  PyStr.zpad 2 (day t) +:+ "T" +:+ PyStr.zpad 2 (hour t) +:+ ":" +:+
  PyStr.zpad 2 (minute t) +:+ ":" +:+ PyStr.zpad 2 (second t) +:+
  (if (microsecond t =? 0)%Z then "" else "." +:+ PyStr.zpad 6 (microsecond t)) +:+
  "+00:00".

(** Two instants fall in the same UTC calendar day. *)
Definition same_day (t1 t2 : datetime) : Prop :=
  year t1 = year t2 ∧ month t1 = month t2 ∧ day t1 = day t2.

End DateTime.

(** ** Models (pydantic classes of the source) *)

Record User := mk_User {
  uid : string;
  email : string;
  name : string;
  role : string;
  department : option string
}.

Record FeedbackSubmit := mk_FeedbackSubmit {
  fs_category : string;
  fs_text : string;
  fs_evidence_urls : option (list string)
}.

Record Issue := mk_Issue {
  issue_id : string;
  category : string;
  summary : string;
  original_text : string;
  status : string;
  urgency_score : Z;
  assigned_role : string;
  frequency_count : Z;
  created_at : string;
  sla_deadline : string;
  anon_token : string;
  evidence_urls : list string
}.

Record IssueUpdate := mk_IssueUpdate {
  update_id : string;
  u_issue_id : string;
  u_role : string;
  content_type : string;
  content_text : option string;
  content_url : option string;
  timestamp : string
}.

Record UpdateCreate := mk_UpdateCreate {
  uc_content_type : string;
  uc_content_text : option string
}.

Record EscalateRequest := mk_EscalateRequest { reason : option string }.

(** The dictionary that [moderate_with_gemini] hands to its caller; a
    parsed reply is taken to carry the four keys the prompt asks for. *)
Record Moderation := mk_Moderation {
  is_appropriate : bool;
  rewritten_text : string;
  m_urgency_score : Z;
  m_summary : string
}.

Record HTTPException := mk_HTTPException { status_code : Z; detail : string }.

(** The error kinds of the engine, as the source raises them. *)
Definition Forbidden (msg : string) : HTTPException := mk_HTTPException 403 msg.
Definition ContentRejected : HTTPException :=
  mk_HTTPException 400 "Feedback contains inappropriate content".
Definition NotFound : HTTPException := mk_HTTPException 404 "Issue not found".
Definition AtCeiling : HTTPException := mk_HTTPException 400 "Already at highest level".
(** What the framework answers when a route lets an exception escape. *)
Definition Unhandled : HTTPException := mk_HTTPException 500 "Internal Server Error".

(** ** External collaborators *)

Class Externals := {
  (** the n-th reading of [datetime.now(timezone.utc)] *)
  utcnow : nat → datetime;
  (** the n-th value of [str(uuid.uuid4())] *)
  uuid4 : nat → string;
  (** [hashlib.sha256(s.encode()).hexdigest()] *)
  sha256_hexdigest : string → string;
  (** the body of the [try] in [moderate_with_gemini], for a session id and
      a text: the parsed reply, or [None] when any exception is raised *)
  gemini : string → string → option Moderation;
  (** [s.lower()], by the Unicode case tables of the interpreter *)
  str_lower : string → string;
  (** on ASCII text the tables lower the letters A to Z and nothing else *)
  str_lower_ascii : ∀ s, PyStr.is_ascii s = true → str_lower s = PyStr.ascii_lower s
}.

(** ** The store and the monad of the routes *)

Record World := mk_World {
  issues : list Issue;
  issue_updates : list IssueUpdate;
  clock_reads : nat;
  uuid_draws : nat
}.

Definition M (A : Type) : Type := World → (HTTPException + A) * World.

Definition ret {A} (a : A) : M A := λ w, (inr a, w).

Definition raise {A} (e : HTTPException) : M A := λ w, (inl e, w).

Definition bind {A B} (c : M A) (k : A → M B) : M B :=
  λ w, match c w with
       | (inl e, w') => (inl e, w')
       | (inr a, w') => k a w'
       end.

Notation "'let*' x := c1 'in' c2" := (bind c1 (λ x, c2))
  (at level 10, x name, c1 at level 100, c2 at level 200).

Definition set_issues (l : list Issue) (w : World) : World :=
  mk_World l (issue_updates w) (clock_reads w) (uuid_draws w).

Definition set_issue_updates (l : list IssueUpdate) (w : World) : World :=
  mk_World (issues w) l (clock_reads w) (uuid_draws w).

Section Store.
Context `{Externals}.

(** [datetime.now(timezone.utc)] *)
Definition now : M datetime :=
  λ w, (inr (utcnow (clock_reads w)),
        mk_World (issues w) (issue_updates w) (S (clock_reads w)) (uuid_draws w)).

(** [str(uuid.uuid4())] *)
Definition new_uuid : M string :=
  λ w, (inr (uuid4 (uuid_draws w)),
        mk_World (issues w) (issue_updates w) (clock_reads w) (S (uuid_draws w))).

(** [db.issues.find(q).to_list(n)]: the first [n] matching documents, in
    insertion order. *)
Definition find_issues (q : Issue → Prop) `{∀ i, Decision (q i)} (n : nat)
  : M (list Issue) :=
  λ w, (inr (take n (filter q (issues w))), w).

(** [db.issues.find_one({"issue_id": x})] *)
Definition find_one_issue (x : string) : M (option Issue) :=
  λ w, (inr (head (filter (λ i, issue_id i = x) (issues w))), w).

(** The list effect of [update_one]: the first match is rewritten. *)
Fixpoint update_first {A} (q : A → Prop) `{∀ a, Decision (q a)} (f : A → A)
    (l : list A) : list A :=
  match l with
  | [] => []
  | a :: l' => if decide (q a) then f a :: l' else a :: update_first q f l'
  end.

(** [db.issues.update_one({"issue_id": x}, u)] *)
Definition update_one_issue (x : string) (u : Issue → Issue) : M unit :=
  λ w, (inr tt, set_issues (update_first (λ i, issue_id i = x) u (issues w)) w).

(** [db.issues.insert_one(d)] *)
Definition insert_issue (i : Issue) : M unit :=
  λ w, (inr tt, set_issues (issues w ++ [i]) w).

(** [db.issue_updates.insert_one(d)] *)
Definition insert_issue_update (u : IssueUpdate) : M unit :=
  λ w, (inr tt, set_issue_updates (issue_updates w ++ [u]) w).

End Store.

(** The update documents of the source. *)

(** [{"$inc": {"frequency_count": 1}}] *)
Definition inc_frequency (i : Issue) : Issue :=
  mk_Issue (issue_id i) (category i) (summary i) (original_text i) (status i)
    (urgency_score i) (assigned_role i) (frequency_count i + 1)
    (created_at i) (sla_deadline i) (anon_token i) (evidence_urls i).

(** [{"$set": {"status": s}}] *)
Definition set_status (s : string) (i : Issue) : Issue :=
  mk_Issue (issue_id i) (category i) (summary i) (original_text i) s
    (urgency_score i) (assigned_role i) (frequency_count i)
    (created_at i) (sla_deadline i) (anon_token i) (evidence_urls i).

(** [{"$set": {"assigned_role": r, "status": s}}] *)
Definition set_role_status (r s : string) (i : Issue) : Issue :=
  mk_Issue (issue_id i) (category i) (summary i) (original_text i) s
    (urgency_score i) r (frequency_count i)
    (created_at i) (sla_deadline i) (anon_token i) (evidence_urls i).

(** ** Documents returned to callers *)

Inductive Value :=
  | VNone
  | VStr (s : string)
  | VInt (n : Z)
  | VList (l : list string).

Definition opt_value (o : option string) : Value :=
  match o with Some s => VStr s | None => VNone end.

(** [issue.model_dump()]: the document kept in [db.issues].  The [_id] key
    that the store adds is projected away by every query of the source. *)
Definition issue_doc (i : Issue) : gmap string Value :=
  list_to_map [
    ("issue_id", VStr (issue_id i));
    ("category", VStr (category i));
    ("summary", VStr (summary i));
    ("original_text", VStr (original_text i));
    ("status", VStr (status i));
    ("urgency_score", VInt (urgency_score i));
    ("assigned_role", VStr (assigned_role i));
    ("frequency_count", VInt (frequency_count i));
    ("created_at", VStr (created_at i));
    ("sla_deadline", VStr (sla_deadline i));
    ("anon_token", VStr (anon_token i));
    ("evidence_urls", VList (evidence_urls i))
  ].

(** [issue_update.model_dump()] *)
Definition update_doc (u : IssueUpdate) : gmap string Value :=
  list_to_map [
    ("update_id", VStr (update_id u));
    ("issue_id", VStr (u_issue_id u));
    ("role", VStr (u_role u));
    ("content_type", VStr (content_type u));
    ("content_text", opt_value (content_text u));
    ("content_url", opt_value (content_url u));
    ("timestamp", VStr (timestamp u))
  ].

(** A projection [{k1: 0, k2: 0, ...}]: the listed keys are removed. *)
Definition project_out (ks : list string) (d : gmap string Value) : gmap string Value :=
  foldr delete d ks.

(** [.sort("timestamp", -1)]: insertion in descending timestamp order. *)
Fixpoint insert_desc (u : IssueUpdate) (l : list IssueUpdate) : list IssueUpdate :=
  match l with
  | [] => [u]
  | v :: l' => if PyStr.lt (timestamp u) (timestamp v) then v :: insert_desc u l' else u :: l
  end.

Definition sort_desc (l : list IssueUpdate) : list IssueUpdate :=
  foldr insert_desc [] l.

(** ** Helper functions of the source *)

Definition hierarchies : gmap string (list string) :=
  list_to_map [
    ("Academics", ["Staff"; "HoD"; "Admin"; "Principal"]);
    ("Hostel", ["Warden"; "Admin"; "Principal"]);
    ("Infrastructure", ["Staff"; "Admin"; "Principal"]);
    ("Food", ["Staff"; "Admin"; "Principal"]);
    ("Transportation", ["Staff"; "Admin"; "Principal"]);
    ("Other", ["Staff"; "Admin"; "Principal"])
  ].

Definition get_role_hierarchy (category : string) : list string :=
  default ["Staff"; "Admin"; "Principal"] (hierarchies !! category).

(** [hierarchy.index(r) if r in hierarchy else -1] *)
Definition current_index (hierarchy : list string) (r : string) : Z :=
  match PyList.index r hierarchy with
  | Some k => Z.of_nat k
  | None => (-1)%Z
  end.

Section Helpers.
Context `{Externals}.

Definition generate_anon_token (uid : string) : M string :=
  let* t := now in
  let salt := DateTime.strftime_Ymd t in
  ret (PyStr.slice_to 12 (sha256_hexdigest (uid +:+ salt))).

(** The dictionary of the [except] branch. *)
Definition fallback_moderation (text : string) : Moderation :=
  mk_Moderation true text 50 (PyStr.slice_to 100 text).

Definition moderate_with_gemini (text : string) : M Moderation :=
  let* session_id := new_uuid in
  match gemini session_id text with
  | Some result => ret result
  | None => ret (fallback_moderation text)
  end.

(** [IssueUpdate(...)]: the two default factories run in field order. *)
Definition new_IssueUpdate (issue_id role content_type : string)
    (content_text : option string) : M IssueUpdate :=
  let* update_id := new_uuid in
  let* t := now in
  ret (mk_IssueUpdate update_id issue_id role content_type content_text None
         (DateTime.isoformat t)).

(** [Issue(...)] as [submit_feedback] calls it: status, frequency count,
    issue id and creation time take their defaults. *)
Definition new_Issue (category summary original_text : string) (urgency_score : Z)
    (assigned_role sla_deadline anon_token : string) (evidence_urls : list string)
  : M Issue :=
  let* issue_id := new_uuid in
  let* t := now in
  ret (mk_Issue issue_id category summary original_text "Open" urgency_score
         assigned_role 1 (DateTime.isoformat t) sla_deadline anon_token evidence_urls).

End Helpers.

(** ** Routes *)

Record SubmitResponse := mk_SubmitResponse { message : string; r_issue_id : string }.

Record IssueDetail := mk_IssueDetail {
  d_issue : gmap string Value;
  d_updates : list (gmap string Value)
}.

(** The query of the duplicate check: same category, not Resolved. *)
Definition open_in_category (c : string) (i : Issue) : Prop :=
  category i = c ∧ status i ≠ "Resolved".

(** The query of the sweep: Open or In Progress, deadline before [now]. *)
Definition overdue (now_iso : string) (i : Issue) : Prop :=
  (status i = "Open" ∨ status i = "In Progress") ∧
  PyStr.lt (sla_deadline i) now_iso = true.

(** [moderation["summary"].lower() in existing["summary"].lower()] *)
Definition similar `{Externals} (moderation : Moderation) (existing : Issue) : bool :=
  PyStr.contains (str_lower (m_summary moderation)) (str_lower (summary existing)).

Section Routes.
Context `{Externals}.

(** The [for existing in existing_issues] loop of [submit_feedback]; it
    returns from the route at the first similar issue. *)
Fixpoint dedup_loop (moderation : Moderation) (existing_issues : list Issue)
  : M (option SubmitResponse) :=
  match existing_issues with
  | [] => ret None
  | existing :: rest =>
      if similar moderation existing then
        let* _ := update_one_issue (issue_id existing) inc_frequency in
        ret (Some (mk_SubmitResponse "Similar issue already reported" (issue_id existing)))
      else dedup_loop moderation rest
  end.

Definition submit_feedback (feedback : FeedbackSubmit) (current_user : User)
  : M SubmitResponse :=
  if decide (role current_user ≠ "Student") then
    raise (Forbidden "Only students can submit feedback")
  else
  let* moderation := moderate_with_gemini (fs_text feedback) in
  if negb (is_appropriate moderation) then raise ContentRejected else
  let* existing_issues := find_issues (open_in_category (fs_category feedback)) 100 in
  let* found := dedup_loop moderation existing_issues in
  match found with
  | Some response => ret response
  | None =>
      let hierarchy := get_role_hierarchy (fs_category feedback) in
      let assigned_role := match hierarchy with r :: _ => r | [] => "Staff" end in
      let* anon_token := generate_anon_token (uid current_user) in
      let* t := now in
      let sla_deadline := DateTime.isoformat (DateTime.add_days 2 t) in
      let* issue := new_Issue (fs_category feedback) (m_summary moderation)
                      (fs_text feedback) (m_urgency_score moderation) assigned_role
                      sla_deadline anon_token (default [] (fs_evidence_urls feedback)) in
      let* _ := insert_issue issue in
      ret (mk_SubmitResponse "Feedback submitted successfully" (issue_id issue))
  end.

(** The projection [{"_id": 0, "anon_token": 0}] over a list of results. *)
Definition without_token (l : list Issue) : list (gmap string Value) :=
  (λ i, project_out ["_id"; "anon_token"] (issue_doc i)) <$> l.

Definition get_my_issues (current_user : User) : M (list (gmap string Value)) :=
  if decide (role current_user = "Student") then
    let* token := generate_anon_token (uid current_user) in
    let* found := find_issues (λ i, anon_token i = token) 1000 in
    ret (without_token found)
  else if decide (role current_user = "Principal") then
    let* found := find_issues (λ i, status i = "Escalated") 1000 in
    ret (without_token found)
  else
    let* found := find_issues (λ i, assigned_role i = role current_user) 1000 in
    ret (without_token found).

Definition get_all_issues (current_user : User) : M (list (gmap string Value)) :=
  if decide (role current_user ∉ ["Admin"; "Principal"]) then
    raise (Forbidden "Access denied")
  else
    let* found := find_issues (λ _, True) 1000 in
    ret (without_token found).

(** [db.issue_updates.find({"issue_id": x}).sort("timestamp", -1).to_list(n)] *)
Definition find_updates_desc (x : string) (n : nat) : M (list IssueUpdate) :=
  λ w, (inr (take n (sort_desc (filter (λ u, u_issue_id u = x) (issue_updates w)))), w).

Definition get_issue (issue_id : string) (current_user : User) : M IssueDetail :=
  let* found := find_one_issue issue_id in
  match found with
  | None => raise NotFound
  | Some issue =>
      let* updates := find_updates_desc issue_id 100 in
      ret (mk_IssueDetail (project_out ["_id"; "anon_token"] (issue_doc issue))
             (project_out ["_id"] ∘ update_doc <$> updates))
  end.

Definition add_update (issue_id : string) (update : UpdateCreate) (current_user : User)
  : M string :=
  if decide (role current_user = "Student") then
    raise (Forbidden "Students cannot update issues")
  else
  let* found := find_one_issue issue_id in
  match found with
  | None => raise NotFound
  | Some _ =>
      let* issue_update := new_IssueUpdate issue_id (role current_user)
                             (uc_content_type update) (uc_content_text update) in
      let* _ := insert_issue_update issue_update in
      let* _ := update_one_issue issue_id (set_status "In Progress") in
      ret "Update added successfully"
  end.

Definition escalate_issue (issue_id : string) (escalate_req : EscalateRequest)
    (current_user : User) : M string :=
  if decide (role current_user = "Student") then
    raise (Forbidden "Students cannot escalate issues")
  else
  let* found := find_one_issue issue_id in
  match found with
  | None => raise NotFound
  | Some issue =>
      let hierarchy := get_role_hierarchy (category issue) in
      let current_index := current_index hierarchy (assigned_role issue) in
      if (Z.of_nat (length hierarchy) - 1 <=? current_index)%Z then raise AtCeiling else
      match PyList.getitem hierarchy (current_index + 1) with
      | None => raise (mk_HTTPException 500 "Internal Server Error")
      | Some next_role =>
          let* _ := update_one_issue issue_id (set_role_status next_role "Escalated") in
          let* issue_update :=
            new_IssueUpdate issue_id (role current_user) "text"
              (Some ("Escalated to " +:+ next_role +:+ ". Reason: " +:+
                     PyStr.or_default (reason escalate_req) "Manual escalation")) in
          let* _ := insert_issue_update issue_update in
          ret ("Issue escalated to " +:+ next_role)
      end
  end.

Definition update_status (issue_id new_status : string) (current_user : User) : M string :=
  if decide (role current_user ∉ ["Admin"; "Principal"; "HoD"; "Warden"; "Staff"]) then
    raise (Forbidden "Access denied")
  else
    let* _ := update_one_issue issue_id (set_status new_status) in
    ret "Status updated successfully".

(** The [for issue in issues] loop of [check_escalation], over the
    documents fetched before the loop. *)
Fixpoint sweep_loop (found : list Issue) (escalated_count : Z) : M Z :=
  match found with
  | [] => ret escalated_count
  | issue :: rest =>
      let hierarchy := get_role_hierarchy (category issue) in
      let current_index := current_index hierarchy (assigned_role issue) in
      if (current_index <? Z.of_nat (length hierarchy) - 1)%Z then
        match PyList.getitem hierarchy (current_index + 1) with
        | None => raise (mk_HTTPException 500 "Internal Server Error")
        | Some next_role =>
            let* _ := update_one_issue (issue_id issue)
                        (set_role_status next_role "Escalated") in
            let* issue_update :=
              new_IssueUpdate (issue_id issue) "System" "text"
                (Some ("Auto-escalated to " +:+ next_role +:+ " due to SLA breach")) in
            let* _ := insert_issue_update issue_update in
            sweep_loop rest (escalated_count + 1)
        end
      else sweep_loop rest escalated_count
  end.

Definition check_escalation : M Z :=
  let* t := now in
  let now_iso := DateTime.isoformat t in
  let* found := find_issues (overdue now_iso) 1000 in
  sweep_loop found 0.

End Routes.

(** ** Vocabulary of the statements *)

(** A route call that did not raise. *)
Definition succeeded {A} (r : HTTPException + A) : Prop :=
  match r with inr _ => True | inl _ => False end.

(** The issue documents of a listing response; an error carries none. *)
Definition listed (r : HTTPException + list (gmap string Value)) : list (gmap string Value) :=
  match r with inr l => l | inl _ => [] end.

(** The store as the routes see it: the two collections. *)
Definition same_store (w w' : World) : Prop :=
  issues w' = issues w ∧ issue_updates w' = issue_updates w.

(** Issue ids are unique in the store (they are uuid4 values). *)
Definition unique_ids (w : World) : Prop := NoDup (issue_id <$> issues w).

(** The role is the last entry of the chain of the issue's category. *)
Definition at_last_position (i : Issue) : Prop :=
  last (get_role_hierarchy (category i)) = Some (assigned_role i).

(** The role does not occur in the chain of the issue's category. *)
Definition absent_from_chain (i : Issue) : Prop :=
  assigned_role i ∉ get_role_hierarchy (category i).

(** An issue the sweep acts on: its role is below the ceiling. *)
Definition below_ceiling (j : Issue) : Prop :=
  (current_index (get_role_hierarchy (category j)) (assigned_role j)
   < Z.of_nat (length (get_role_hierarchy (category j))) - 1)%Z.

(** A returned document without the [anon_token] key. *)
Definition no_token (d : gmap string Value) : Prop := d !! "anon_token" = None.

(** The updates logged for one issue. *)
Definition updates_of (x : string) (w : World) : list IssueUpdate :=
  filter (λ u, u_issue_id u = x) (issue_updates w).

Section Vocabulary.
Context `{Externals}.

(** What [moderate_with_gemini] returns when called in world [w]. *)
Definition moderation_of (w : World) (text : string) : Moderation :=
  match gemini (uuid4 (uuid_draws w)) text with
  | Some result => result
  | None => fallback_moderation text
  end.

(** The world after the moderation call: one uuid was drawn. *)
Definition after_moderation (w : World) : World :=
  mk_World (issues w) (issue_updates w) (clock_reads w) (S (uuid_draws w)).

(** The documents the duplicate check of [submit_feedback] looks at. *)
Definition candidates (c : string) (w : World) : list Issue :=
  take 100 (filter (open_in_category c) (issues w)).

(** The token [generate_anon_token] computes from a clock reading. *)
Definition token_at (t : datetime) (uid : string) : string :=
  PyStr.slice_to 12 (sha256_hexdigest (uid +:+ DateTime.strftime_Ymd t)).

(** The record [submit_feedback] inserts when it finds no duplicate, for
    a call entered in world [w]: the clock is read for the token, then
    for the deadline, then by the default factory of [created_at]. *)
Definition created_issue (feedback : FeedbackSubmit) (current_user : User) (w : World)
  : Issue :=
  let moderation := moderation_of w (fs_text feedback) in
  mk_Issue (uuid4 (S (uuid_draws w))) (fs_category feedback) (m_summary moderation)
    (fs_text feedback) "Open" (m_urgency_score moderation)
    (match get_role_hierarchy (fs_category feedback) with r :: _ => r | [] => "Staff" end)
    1
    (DateTime.isoformat (utcnow (S (S (clock_reads w)))))
    (DateTime.isoformat (DateTime.add_days 2 (utcnow (S (clock_reads w)))))
    (token_at (utcnow (clock_reads w)) (uid current_user))
    (default [] (fs_evidence_urls feedback)).

(** The log entry the sweep writes for an issue escalated to [next_role],
    in world [w]. *)
Definition sweep_entry (issue : Issue) (next_role : string) (w : World) : IssueUpdate :=
  mk_IssueUpdate (uuid4 (uuid_draws w)) (issue_id issue) "System" "text"
    (Some ("Auto-escalated to " +:+ next_role +:+ " due to SLA breach")) None
    (DateTime.isoformat (utcnow (clock_reads w))).

End Vocabulary.

(** ** A concrete environment, for examples *)

Module Demo.

(** A clock that advances one microsecond per reading. *)
Definition clock (n : nat) : datetime := mk_datetime 2026 11 3 10 0 0 (Z.of_nat n).

(** A gateway that raises on the text [crash], flags the text [abuse],
    and otherwise echoes the text as its summary with urgency 40. *)
Definition gateway (session_id text : string) : option Moderation :=
  if decide (text = "crash") then None
  else if decide (text = "abuse") then Some (mk_Moderation false "" 90 "abuse")
  else Some (mk_Moderation true text 40 text).

(** [s.lower()] on text written in ASCII and Latin-1, which is all the
    examples use: besides A to Z, the two-byte letters U+00C0 to U+00DE
    (without the sign U+00D7) are lowered, and every other byte is kept. *)
Fixpoint lower (s : string) : string :=
  match s with
  | EmptyString => EmptyString
  | String c s' =>
      if (nat_of_ascii c =? 195)%nat then
        match s' with
        | EmptyString => String c EmptyString
        | String d s'' =>
            let n := nat_of_ascii d in
            if (128 <=? n)%nat && (n <=? 158)%nat && negb (n =? 151)%nat
            then String c (String (ascii_of_nat (n + 32)) (lower s''))
            else String c (lower s')
        end
      else String (PyStr.lower_char c) (lower s')
  end.

Definition lower_ascii (s : string) :
  PyStr.is_ascii s = true → lower s = PyStr.ascii_lower s.
Proof.
  induction s as [|c s IH]; [reflexivity|].
  intros [Hc Hs]%andb_true_iff. apply Nat.ltb_lt in Hc.
  change (lower (String c s))
    with (if (nat_of_ascii c =? 195)%nat
          then match s with
               | EmptyString => String c EmptyString
               | String d s'' =>
                   if (128 <=? nat_of_ascii d)%nat && (nat_of_ascii d <=? 158)%nat &&
                      negb (nat_of_ascii d =? 151)%nat
                   then String c (String (ascii_of_nat (nat_of_ascii d + 32)) (lower s''))
                   else String c (lower s)
               end
          else String (PyStr.lower_char c) (lower s)).
  destruct (nat_of_ascii c =? 195)%nat eqn:E; [apply Nat.eqb_eq in E; lia|].
  simpl. by rewrite IH.
Defined.

Definition externals : Externals :=
  {| utcnow := clock;
     uuid4 := λ n, "uuid-" +:+ PyStr.zpad 4 (Z.of_nat n);
     sha256_hexdigest := λ s, s;
     gemini := gateway;
     str_lower := lower;
     str_lower_ascii := lower_ascii |}.

(** The same environment with a clock that stands still. *)
Definition frozen : Externals :=
  {| utcnow := λ _, mk_datetime 2026 11 3 10 0 0 0;
     uuid4 := λ n, "uuid-" +:+ PyStr.zpad 4 (Z.of_nat n);
     sha256_hexdigest := λ s, s;
     gemini := gateway;
     str_lower := lower;
     str_lower_ascii := lower_ascii |}.

(** The first environment with a gateway that always raises. *)
Definition offline : Externals :=
  {| utcnow := clock;
     uuid4 := λ n, "uuid-" +:+ PyStr.zpad 4 (Z.of_nat n);
     sha256_hexdigest := λ s, s;
     gemini := λ _ _, None;
     str_lower := lower;
     str_lower_ascii := lower_ascii |}.

(** [s * n] *)
Fixpoint times (n : nat) (s : string) : string :=
  match n with
  | O => EmptyString
  | S n' => s +:+ times n' s
  end.

(** The letter e with an acute accent, small and capital: one code point
    and two bytes each. *)
Definition e_acute : string := String (ascii_of_nat 195) (String (ascii_of_nat 169) EmptyString).
Definition E_acute : string := String (ascii_of_nat 195) (String (ascii_of_nat 137) EmptyString).

Definition student : User := mk_User "u1" "student@campus.example" "Sam" "Student" None.
Definition admin : User := mk_User "u2" "admin@campus.example" "Ada" "Admin" None.

Definition issue (id cat text st r : string) : Issue :=
  mk_Issue id cat text text st 40 r 1
    "2026-10-01T08:00:00+00:00" "2026-10-03T08:00:00+00:00" "u120261001" [].

Definition store (l : list Issue) : World := mk_World l [] 0 0.

(** A Hostel issue whose role is not in the Hostel chain. *)
Definition stray : Issue := issue "i1" "Hostel" "no hot water" "Open" "Staff".

(** A Hostel issue at the top of its chain. *)
Definition top : Issue := issue "i2" "Hostel" "broken window" "Open" "Principal".

(** A Hostel issue at the start of its chain, past its deadline. *)
Definition late : Issue := issue "i3" "Hostel" "leaking roof" "Open" "Warden".

(** A resolved issue. *)
Definition closed : Issue := issue "i4" "Food" "cold lunch" "Resolved" "Admin".

(** One hundred open Food issues about the canteen queue, followed by
    one about the projector. *)
Definition queue (n : nat) : Issue :=
  issue ("q" +:+ PyStr.zpad 3 (Z.of_nat n)) "Food" "Long canteen queue" "Open" "Staff".

Definition projector : Issue :=
  issue "p100" "Food" "Projector broken in room 5" "Open" "Staff".

Definition crowded : World := store ((queue <$> seq 0 100) ++ [projector]).

Definition feedback (text : string) : FeedbackSubmit := mk_FeedbackSubmit "Food" text None.

End Demo.

(** ** Dashboard statistics *)

Record DashboardStats := mk_DashboardStats {
  total_issues : nat;
  open_issues : nat;
  in_progress : nat;
  resolved : nat;
  escalated : nat;
  categories : list (string * nat)
}.

(** [db.issues.count_documents(q)] *)
Definition count_documents (q : Issue → Prop) `{∀ i, Decision (q i)} : M nat :=
  λ w, (inr (length (filter q (issues w))), w).

(** The pipeline [{"$group": {"_id": "$category", "count": {"$sum": 1}}}]:
    one pair per distinct category, with the number of issues carrying it.
    The store does not promise an order of the groups; the model lists them
    in the order of the last occurrence of each category. *)
Definition group_by_category (l : list Issue) : list (string * nat) :=
  (λ c, (c, length (filter (λ i, category i = c) l))) <$> remove_dups (category <$> l).

(** [db.issues.aggregate(pipeline).to_list(n)] *)
Definition aggregate_categories (n : nat) : M (list (string * nat)) :=
  λ w, (inr (take n (group_by_category (issues w))), w).

Definition get_dashboard_stats (current_user : User) : M DashboardStats :=
  let* total_issues := count_documents (λ _, True) in
  let* open_issues := count_documents (λ i, status i = "Open") in
  let* in_progress := count_documents (λ i, status i = "In Progress") in
  let* resolved := count_documents (λ i, status i = "Resolved") in
  let* escalated := count_documents (λ i, status i = "Escalated") in
  let* categories := aggregate_categories 100 in
  ret (mk_DashboardStats total_issues open_issues in_progress resolved escalated categories).

(** ** More vocabulary *)

(** Every issue is held by a role of the chain of its category. *)
Definition roles_in_chain (w : World) : Prop :=
  Forall (λ i, assigned_role i ∈ get_role_hierarchy (category i)) (issues w).

(** The four statuses the engine itself writes. *)
Definition known_status (s : string) : Prop :=
  s = "Open" ∨ s = "In Progress" ∨ s = "Resolved" ∨ s = "Escalated".

(** Timestamps in descending order, neighbour by neighbour. *)
Fixpoint newest_first (l : list IssueUpdate) : Prop :=
  match l with
  | [] => True
  | u :: l' =>
      match l' with
      | [] => True
      | v :: _ => PyStr.lt (timestamp u) (timestamp v) = false
      end ∧ newest_first l'
  end.

(** The fields of an issue that are set at creation. *)
Definition fixed_fields (i : Issue) :=
  (issue_id i, category i, summary i, original_text i, urgency_score i,
   created_at i, sla_deadline i, anon_token i, evidence_urls i).

(** One string is an initial segment of another. *)
Definition str_prefix (a b : string) : Prop := ∃ rest, b = a +:+ rest.

(** The string begins at a code point, not in the middle of one. *)
Definition at_boundary (s : string) : Prop :=
  match s with
  | EmptyString => True
  | String c _ => PyStr.is_continuation c = false
  end.

(** [a] is [b] cut between two code points. *)
Definition cut_of (a b : string) : Prop := ∃ rest, b = a +:+ rest ∧ at_boundary rest.

(** ** Accounts: registration and login

    The [users] collection is touched by no issue route, so the account
    routes run over a world of their own.  bcrypt and the JWT library are
    collaborators.  The two bcrypt calls can raise (recent versions refuse
    a password of more than 72 bytes with ValueError); [None] stands for
    the exception, which no route catches.  [jwt_decode] yields the [uid]
    of the payload, or [None] for any exception (bad signature, expired,
    malformed). *)

Class Crypto := {
  (** the n-th value of [bcrypt.gensalt()] *)
  gensalt : nat → string;
  (** [bcrypt.hashpw(password.encode(), salt).decode()] *)
  hashpw : string → string → option string;
  (** [bcrypt.checkpw(password.encode(), hashed.encode())] *)
  checkpw : string → string → option bool;
  (** [jwt.encode({"uid": uid, "exp": exp}, JWT_SECRET, algorithm="HS256")] *)
  jwt_encode : string → datetime → string;
  (** [jwt.decode(token, JWT_SECRET, algorithms=["HS256"])["uid"]], checked
      against the time of the call *)
  jwt_decode : string → datetime → option string
}.

Record UserCreate := mk_UserCreate {
  c_email : string;
  c_password : string;
  c_name : string;
  c_role : string;
  c_department : option string
}.

Record UserLogin := mk_UserLogin { l_email : string; l_password : string }.

(** A document of [db.users]: the dumped [User] model plus the password hash. *)
Record UserDoc := mk_UserDoc {
  ud_user : User;
  ud_created_at : string;
  ud_password : string
}.

Record AuthResponse := mk_AuthResponse { token : string; user : User }.

Record Accounts := mk_Accounts {
  users : list UserDoc;
  a_clock_reads : nat;
  a_uuid_draws : nat;
  a_salt_draws : nat
}.

Module Auth.

Definition M (A : Type) : Type := Accounts → (HTTPException + A) * Accounts.

Definition ret {A} (a : A) : M A := λ s, (inr a, s).

Definition raise {A} (e : HTTPException) : M A := λ s, (inl e, s).

Definition bind {A B} (c : M A) (k : A → M B) : M B :=
  λ s, match c s with
       | (inl e, s') => (inl e, s')
       | (inr a, s') => k a s'
       end.

End Auth.

Notation "'let+' x := c1 'in' c2" := (Auth.bind c1 (λ x, c2))
  (at level 10, x name, c1 at level 100, c2 at level 200).

Section AccountRoutes.
Context `{Externals} `{Crypto}.

(** [datetime.now(timezone.utc)] *)
Definition a_now : Auth.M datetime :=
  λ s, (inr (utcnow (a_clock_reads s)),
        mk_Accounts (users s) (S (a_clock_reads s)) (a_uuid_draws s) (a_salt_draws s)).

(** [str(uuid.uuid4())] *)
Definition a_new_uuid : Auth.M string :=
  λ s, (inr (uuid4 (a_uuid_draws s)),
        mk_Accounts (users s) (a_clock_reads s) (S (a_uuid_draws s)) (a_salt_draws s)).

(** [bcrypt.gensalt()] *)
Definition a_gensalt : Auth.M string :=
  λ s, (inr (gensalt (a_salt_draws s)),
        mk_Accounts (users s) (a_clock_reads s) (a_uuid_draws s) (S (a_salt_draws s))).

(** [db.users.find_one(q)] *)
Definition find_one_user (q : UserDoc → Prop) `{∀ d, Decision (q d)} : Auth.M (option UserDoc) :=
  λ s, (inr (head (filter q (users s))), s).

(** [db.users.insert_one(d)] *)
Definition insert_user (d : UserDoc) : Auth.M unit :=
  λ s, (inr tt, mk_Accounts (users s ++ [d]) (a_clock_reads s) (a_uuid_draws s) (a_salt_draws s)).

Definition hash_password (password : string) : Auth.M string :=
  let+ salt := a_gensalt in
  match hashpw password salt with
  | Some hashed => Auth.ret hashed
  | None => Auth.raise Unhandled
  end.

Definition verify_password (password hashed : string) : Auth.M bool :=
  match checkpw password hashed with
  | Some ok => Auth.ret ok
  | None => Auth.raise Unhandled
  end.

Definition create_jwt_token (uid : string) : Auth.M string :=
  let+ t := a_now in
  Auth.ret (jwt_encode uid (DateTime.add_days 7 t)).

Definition decode_jwt_token (token : string) : Auth.M string :=
  let+ t := a_now in
  match jwt_decode token t with
  | Some uid => Auth.ret uid
  | None => Auth.raise (mk_HTTPException 401 "Invalid token")
  end.

Definition get_current_user (credentials : string) : Auth.M UserDoc :=
  let+ payload_uid := decode_jwt_token credentials in
  let+ found := find_one_user (λ d, uid (ud_user d) = payload_uid) in
  match found with
  | None => Auth.raise (mk_HTTPException 401 "User not found")
  | Some user => Auth.ret user
  end.

Definition register (user_data : UserCreate) : Auth.M AuthResponse :=
  let+ existing := find_one_user (λ d, email (ud_user d) = c_email user_data) in
  match existing with
  | Some _ => Auth.raise (mk_HTTPException 400 "Email already registered")
  | None =>
      let+ new_uid := a_new_uuid in
      let+ t := a_now in
      let user := mk_User new_uid (c_email user_data) (c_name user_data)
                    (c_role user_data) (c_department user_data) in
      let+ hashed := hash_password (c_password user_data) in
      let+ _ := insert_user (mk_UserDoc user (DateTime.isoformat t) hashed) in
      let+ token := create_jwt_token (uid user) in
      Auth.ret (mk_AuthResponse token user)
  end.

Definition login (credentials : UserLogin) : Auth.M AuthResponse :=
  let+ found := find_one_user (λ d, email (ud_user d) = l_email credentials) in
  match found with
  | None => Auth.raise (mk_HTTPException 401 "Invalid credentials")
  | Some doc =>
      let+ ok := verify_password (l_password credentials) (ud_password doc) in
      if negb ok then
        Auth.raise (mk_HTTPException 401 "Invalid credentials")
      else
        let+ token := create_jwt_token (uid (ud_user doc)) in
        Auth.ret (mk_AuthResponse token (ud_user doc))
  end.

(** [get_me]: the caller's own record, without hash and creation time. *)
Definition get_me (current_user : UserDoc) : User := ud_user current_user.

End AccountRoutes.

Section AccountVocabulary.
Context `{Externals} `{Crypto}.

(** The user record and the stored document of a registration entered in
    world [s], for the hash [hashed] that bcrypt returned. *)
Definition registered_user (data : UserCreate) (s : Accounts) : User :=
  mk_User (uuid4 (a_uuid_draws s)) (c_email data) (c_name data) (c_role data)
    (c_department data).

Definition registered_doc (data : UserCreate) (s : Accounts) (hashed : string) : UserDoc :=
  mk_UserDoc (registered_user data s) (DateTime.isoformat (utcnow (a_clock_reads s))) hashed.

(** The accounts after a registration that stopped at the bcrypt call:
    a uid, a clock reading and a salt were drawn, no document written. *)
Definition after_failed_hash (s : Accounts) : Accounts :=
  mk_Accounts (users s) (S (a_clock_reads s)) (S (a_uuid_draws s)) (S (a_salt_draws s)).

End AccountVocabulary.

(** A concrete [Crypto], for examples: the hash is the salt followed by
    the password, a password of more than 72 bytes is refused, and a token
    is the uid it was issued for. *)
Module DemoAuth.

Definition crypto : Crypto :=
  {| gensalt := λ _, "salt$";
     hashpw := λ password salt,
       if (String.length password <=? 72)%nat then Some (salt +:+ password) else None;
     checkpw := λ password hashed,
       if (String.length password <=? 72)%nat
       then Some (String.eqb hashed ("salt$" +:+ password)) else None;
     jwt_encode := λ uid _, "jwt." +:+ uid;
     jwt_decode := λ token _,
       if PyStr.startswith "jwt." token
       then Some (String.substring 4 (String.length token - 4) token)
       else None |}.

Definition empty : Accounts := mk_Accounts [] 0 0 0.

Definition ada : UserCreate :=
  mk_UserCreate "ada@campus.example" "s3cret" "Ada" "Admin" None.

(** A registration with a password of 73 bytes. *)
Definition bob : UserCreate :=
  mk_UserCreate "bob@campus.example" (Demo.times 73 "x") "Bob" "Student" None.

End DemoAuth.

(** ** Facts about strings and lists *)

Lemma startswith_spec p s :
  PyStr.startswith p s = true ↔ ∃ q, s = p +:+ q.
Proof.
  revert s. induction p as [|a p IH]; intros s; simpl.
  - split; [intros _; by exists s | done].
  - destruct s as [|b s].
    + split; [done | intros [q Hq]; discriminate Hq].
    + destruct (Ascii.eqb a b) eqn:Hab.
      * apply Ascii.eqb_eq in Hab as ->. rewrite IH.
        split; intros [q Hq]; exists q; [by rewrite Hq | by injection Hq].
      * apply Ascii.eqb_neq in Hab.
        split; [done | intros [q Hq]; injection Hq as Hb _; congruence].
Qed.

(** [PyStr.contains] is substring containment. *)
Lemma contains_spec needle hay :
  PyStr.contains needle hay = true ↔ ∃ p q, hay = p +:+ needle +:+ q.
Proof.
  induction hay as [|c hay IH]; simpl.
  - rewrite orb_false_r, startswith_spec. split.
    + intros [q Hq]. by exists "", q.
    + intros [p [q Hq]]. destruct p; [by exists q | discriminate Hq].
  - rewrite orb_true_iff, startswith_spec, IH. split.
    + intros [[q Hq] | [p [q Hq]]].
      * by exists "", q.
      * exists (String c p), q. simpl. by rewrite Hq.
    + intros [p [q Hq]]. destruct p as [|c' p]; simpl in Hq.
      * left. by exists q.
      * right. injection Hq as _ Hq. by exists p, q.
Qed.

(** The duplicate test is a case-insensitive substring test. *)
Lemma similar_spec `{Externals} m e :
  similar m e = true ↔
  ∃ p q, str_lower (summary e) = p +:+ str_lower (m_summary m) +:+ q.
Proof. apply contains_spec. Qed.

(** Slicing keeps whole code points: [s[:n]] is an initial segment of [s],
    cut between two code points, of [min(n, len(s))] code points. *)
Lemma slice_to_cut n s : cut_of (PyStr.slice_to n s) s.
Proof.
  revert n. induction s as [|c s IH]; intros n; [by exists ""|].
  simpl. destruct (PyStr.is_continuation c) eqn:Hc.
  - destruct (IH n) as (rest & Hrest & Hb). exists rest. split; [|done].
    change (String c s = String c (PyStr.slice_to n s +:+ rest)). by f_equal.
  - destruct n as [|n].
    + exists (String c s). by split.
    + destruct (IH n) as (rest & Hrest & Hb). exists rest. split; [|done].
      change (String c s = String c (PyStr.slice_to n s +:+ rest)). by f_equal.
Qed.

Lemma slice_to_prefix n s : str_prefix (PyStr.slice_to n s) s.
Proof. destruct (slice_to_cut n s) as (rest & Hrest & _). by exists rest. Qed.

Lemma slice_to_len n s : PyStr.len (PyStr.slice_to n s) = n `min` PyStr.len s.
Proof.
  revert n. induction s as [|c s IH]; intros n; [by destruct n|].
  simpl. destruct (PyStr.is_continuation c) eqn:Hc; simpl; rewrite ?Hc.
  - apply IH.
  - destruct n as [|n]; [done|]. simpl. rewrite Hc. by rewrite IH.
Qed.

Lemma slice_to_all n s : (PyStr.len s ≤ n)%nat → PyStr.slice_to n s = s.
Proof.
  revert n. induction s as [|c s IH]; intros n Hs; [done|].
  simpl in *. destruct (PyStr.is_continuation c).
  - by rewrite IH.
  - destruct n as [|n]; [lia|]. rewrite IH; [done | lia].
Qed.

(** On ASCII text code points are bytes. *)
Lemma len_ascii s : PyStr.is_ascii s = true → PyStr.len s = String.length s.
Proof.
  induction s as [|c s IH]; [done|]. simpl. intros [Hc Hs]%andb_true_iff.
  unfold PyStr.is_continuation.
  apply Nat.ltb_lt in Hc.
  destruct (128 <=? nat_of_ascii c)%nat eqn:Hge; [apply Nat.leb_le in Hge; lia|].
  simpl. by rewrite IH.
Qed.

Lemma index_None x l : PyList.index x l = None ↔ x ∉ l.
Proof.
  induction l as [|y l IH]; simpl.
  - split; [intros _; apply not_elem_of_nil | done].
  - rewrite not_elem_of_cons. case_decide as Hy.
    + split; [done | intros [Hne _]; congruence].
    + destruct (PyList.index x l); simpl.
      * split; [done | intros [_ Hn]]. by apply IH in Hn.
      * split; [intros _; split; [congruence | by apply IH] | done].
Qed.

Lemma index_Some x l k : PyList.index x l = Some k → l !! k = Some x.
Proof.
  revert k. induction l as [|y l IH]; intros k; simpl; [done|].
  case_decide as Hy.
  - intros [= <-]. by rewrite Hy.
  - destruct (PyList.index x l) as [k'|]; simpl; [|done].
    intros [= <-]. by apply IH.
Qed.

Lemma current_index_absent h r : r ∉ h → current_index h r = (-1)%Z.
Proof. intros Hr. unfold current_index. by apply index_None in Hr as ->. Qed.

Lemma current_index_bounds h r :
  (-1 ≤ current_index h r < Z.of_nat (length h))%Z.
Proof.
  unfold current_index. destruct (PyList.index r h) as [k|] eqn:E; [|lia].
  apply index_Some, lookup_lt_Some in E. lia.
Qed.

(** Below the ceiling the next role always exists: [hierarchy[i + 1]]
    never raises IndexError in the routes. *)
Lemma getitem_next h r :
  (current_index h r < Z.of_nat (length h) - 1)%Z →
  ∃ next_role,
    PyList.getitem h (current_index h r + 1) = Some next_role ∧
    h !! Z.to_nat (current_index h r + 1) = Some next_role.
Proof.
  intros Hlt. pose proof (current_index_bounds h r) as Hb.
  unfold PyList.getitem.
  destruct (0 <=? current_index h r + 1)%Z eqn:E; [|lia].
  destruct (h !! Z.to_nat (current_index h r + 1)) as [x|] eqn:Hx; [by exists x|].
  apply lookup_ge_None in Hx. lia.
Qed.

Section ListStore.
Context {A : Type} (key : A → string).

Lemma NoDup_key_lookup_inj (l : list A) p q a b :
  NoDup (key <$> l) → l !! p = Some a → l !! q = Some b → key a = key b → p = q.
Proof.
  intros Hnd Hp Hq Hk.
  eapply NoDup_lookup; [exact Hnd | |].
  - rewrite list_lookup_fmap, Hp. reflexivity.
  - rewrite list_lookup_fmap, Hq. simpl. by rewrite Hk.
Qed.

(** With unique keys, [find_one] by key returns the document itself. *)
Lemma find_one_unique (l : list A) p a :
  NoDup (key <$> l) → l !! p = Some a →
  head (filter (λ b, key b = key a) l) = Some a.
Proof.
  revert p. induction l as [|b l IH]; intros p Hnd Hp; [done|].
  rewrite fmap_cons in Hnd. apply NoDup_cons in Hnd as [Hb Hnd].
  destruct p as [|p]; simpl in Hp.
  - injection Hp as ->. rewrite filter_cons_True; done.
  - rewrite filter_cons_False; [by eapply IH|].
    intros Hk. apply Hb. rewrite Hk. apply list_elem_of_fmap.
    exists a. split; [done | by eapply list_elem_of_lookup_2].
Qed.

Lemma find_one_absent (l : list A) x :
  (∀ a, a ∈ l → key a ≠ x) → head (filter (λ b, key b = x) l) = None.
Proof.
  intros Hx. induction l as [|b l IH]; [done|].
  rewrite filter_cons_False; [|apply Hx; left].
  apply IH. intros a Ha. apply Hx. by right.
Qed.

(** With unique keys, [update_one] by key rewrites the document in place. *)
Lemma update_first_unique (f : A → A) (l : list A) p a :
  NoDup (key <$> l) → l !! p = Some a →
  update_first (λ b, key b = key a) f l = <[p := f a]> l.
Proof.
  revert p. induction l as [|b l IH]; intros p Hnd Hp; [done|].
  rewrite fmap_cons in Hnd. apply NoDup_cons in Hnd as [Hb Hnd].
  destruct p as [|p]; simpl in Hp; simpl.
  - injection Hp as ->. by rewrite decide_True.
  - rewrite decide_False; [by erewrite IH|].
    intros Hk. apply Hb. rewrite Hk. apply list_elem_of_fmap.
    exists a. split; [done | by eapply list_elem_of_lookup_2].
Qed.

(** [update_one] with another key leaves a document where it is. *)
Lemma update_first_lookup_ne (f : A → A) (l : list A) x p a :
  l !! p = Some a → key a ≠ x →
  update_first (λ b, key b = x) f l !! p = Some a.
Proof.
  revert p. induction l as [|b l IH]; intros p Hp Hne; [done|].
  simpl. case_decide as Hb.
  - destruct p as [|p]; simpl in *; [|done]. injection Hp as ->. congruence.
  - destruct p as [|p]; simpl in *; [done | by apply IH].
Qed.

Lemma update_first_length (q : A → Prop) `{∀ a, Decision (q a)} (f : A → A) l :
  length (update_first q f l) = length l.
Proof. induction l as [|b l IH]; simpl; [done|]. case_decide; simpl; by rewrite ?IH. Qed.

(** [update_one] keeps the keys when the update does. *)
Lemma update_first_keys (q : A → Prop) `{∀ a, Decision (q a)} (f : A → A) l :
  (∀ a, key (f a) = key a) → key <$> update_first q f l = key <$> l.
Proof.
  intros Hf. induction l as [|b l IH]; [done|].
  cbn [update_first]. case_decide; rewrite !fmap_cons; [by rewrite Hf | by rewrite IH].
Qed.

End ListStore.

(** ** Facts about the escalation policy *)

Lemma get_role_hierarchy_cases c :
  get_role_hierarchy c = ["Staff"; "HoD"; "Admin"; "Principal"] ∨
  get_role_hierarchy c = ["Warden"; "Admin"; "Principal"] ∨
  get_role_hierarchy c = ["Staff"; "Admin"; "Principal"].
Proof.
  unfold get_role_hierarchy.
  destruct (hierarchies !! c) as [h|] eqn:E; simpl; [|auto].
  apply elem_of_list_to_map_2 in E.
  repeat (apply elem_of_cons in E as [E|E]; [simplify_eq; auto|]).
  by apply elem_of_nil in E.
Qed.

(** Unknown categories fall back to the default chain. *)
Lemma get_role_hierarchy_default c :
  c ∉ ["Academics"; "Hostel"; "Infrastructure"; "Food"; "Transportation"; "Other"] →
  get_role_hierarchy c = ["Staff"; "Admin"; "Principal"].
Proof.
  intros Hc. unfold get_role_hierarchy.
  destruct (hierarchies !! c) as [h|] eqn:E; simpl; [|done].
  apply elem_of_list_to_map_2 in E. exfalso. apply Hc.
  repeat (apply elem_of_cons in E as [E|E]; [simplify_eq; set_solver|]).
  by apply elem_of_nil in E.
Qed.

Lemma hierarchy_head c : ∃ r rest, get_role_hierarchy c = r :: rest.
Proof. destruct (get_role_hierarchy_cases c) as [-> | [-> | ->]]; eauto. Qed.

Lemma index_of_lookup (l : list string) (k : nat) x :
  NoDup l → l !! k = Some x → PyList.index x l = Some k.
Proof.
  revert k. induction l as [|y l IH]; intros k Hnd Hk; [done|].
  apply NoDup_cons in Hnd as [Hy Hnd]. simpl.
  destruct k as [|k]; simpl in Hk.
  - injection Hk as ->. by rewrite decide_True.
  - rewrite decide_False.
    + by rewrite (IH k Hnd Hk).
    + intros ->. apply Hy. by eapply list_elem_of_lookup_2.
Qed.

Lemma chain_NoDup c : NoDup (get_role_hierarchy c).
Proof.
  destruct (get_role_hierarchy_cases c) as [-> | [-> | ->]];
    apply (bool_decide_unpack _); vm_compute; exact I.
Qed.

(** The role at the last position of a chain has index [len - 1]. *)
Lemma current_index_last c r :
  last (get_role_hierarchy c) = Some r →
  current_index (get_role_hierarchy c) r = (Z.of_nat (length (get_role_hierarchy c)) - 1)%Z.
Proof.
  destruct (get_role_hierarchy_cases c) as [-> | [-> | ->]];
    simpl; intros [= <-]; reflexivity.
Qed.

Lemma find_first {A} (f : A → bool) (l : list A) k a :
  l !! k = Some a → f a = true →
  (∀ k' b, k' < k → l !! k' = Some b → f b = false) →
  List.find f l = Some a.
Proof.
  revert k. induction l as [|b l IH]; intros k Hk Ha Hbefore; [done|].
  destruct k as [|k]; simpl in *.
  - injection Hk as ->. by rewrite Ha.
  - rewrite (Hbefore 0 b); [|lia|done].
    apply (IH k); [done..|].
    intros k' b' Hlt Hb'. apply (Hbefore (S k') b'); [lia|done].
Qed.

Lemma find_none {A} (f : A → bool) (l : list A) :
  (∀ a, a ∈ l → f a = false) → List.find f l = None.
Proof.
  induction l as [|b l IH]; intros Hl; [done|]. simpl.
  rewrite Hl; [|left]. apply IH. intros a Ha. apply Hl. by right.
Qed.

Lemma find_some_elem {A} (f : A → bool) (l : list A) a :
  List.find f l = Some a → a ∈ l ∧ f a = true.
Proof.
  induction l as [|b l IH]; simpl; [done|].
  destruct (f b) eqn:Hb.
  - intros [= <-]. split; [left | done].
  - intros Ha. destruct (IH Ha). split; [by right | done].
Qed.

(** ** Facts about submit_feedback *)

Section SubmitFacts.
Context `{Externals}.

Lemma moderate_with_gemini_eq text w :
  moderate_with_gemini text w = (inr (moderation_of w text), after_moderation w).
Proof.
  unfold moderate_with_gemini, moderation_of, after_moderation, bind, new_uuid.
  by destruct (gemini _ _).
Qed.

Lemma generate_anon_token_eq uid w :
  generate_anon_token uid w =
  (inr (token_at (utcnow (clock_reads w)) uid),
   mk_World (issues w) (issue_updates w) (S (clock_reads w)) (uuid_draws w)).
Proof. reflexivity. Qed.

(** The loop stops at the first similar candidate and bumps it. *)
Lemma dedup_loop_eq m l w :
  dedup_loop m l w =
  match List.find (similar m) l with
  | Some e =>
      (inr (Some (mk_SubmitResponse "Similar issue already reported" (issue_id e))),
       set_issues (update_first (λ i, issue_id i = issue_id e) inc_frequency (issues w)) w)
  | None => (inr None, w)
  end.
Proof.
  induction l as [|e l IH]; simpl; [done|].
  destruct (similar m e); [reflexivity | apply IH].
Qed.

(** The three ways out of [submit_feedback] for a student. *)
Lemma submit_feedback_eq fb u w :
  role u = "Student" →
  submit_feedback fb u w =
  let m := moderation_of w (fs_text fb) in
  if negb (is_appropriate m) then (inl ContentRejected, after_moderation w)
  else match List.find (similar m) (candidates (fs_category fb) w) with
       | Some e =>
           (inr (mk_SubmitResponse "Similar issue already reported" (issue_id e)),
            set_issues (update_first (λ i, issue_id i = issue_id e) inc_frequency (issues w))
              (after_moderation w))
       | None =>
           (inr (mk_SubmitResponse "Feedback submitted successfully"
                   (issue_id (created_issue fb u w))),
            mk_World (issues w ++ [created_issue fb u w]) (issue_updates w)
              (3 + clock_reads w) (2 + uuid_draws w))
       end.
Proof.
  intros Hu. unfold submit_feedback.
  rewrite decide_False by (by rewrite Hu; intros []).
  unfold bind at 1. rewrite moderate_with_gemini_eq. cbv zeta.
  destruct (negb (is_appropriate (moderation_of w (fs_text fb)))); [reflexivity|].
  unfold bind at 1. unfold find_issues at 1.
  unfold bind at 1. rewrite dedup_loop_eq.
  change (take 100 (filter (open_in_category (fs_category fb)) (issues (after_moderation w))))
    with (candidates (fs_category fb) w).
  destruct (List.find _ _); reflexivity.
Qed.

Lemma candidates_elem c w e : e ∈ candidates c w → e ∈ issues w ∧ open_in_category c e.
Proof.
  unfold candidates. rewrite elem_of_take. intros (i & Hi & _).
  apply list_elem_of_lookup_2, list_elem_of_filter in Hi. tauto.
Qed.

End SubmitFacts.

(** ** Submission: duplicates *)

(** C2, as amended.  For a submission by a student that passes moderation,
    in a store with unique issue ids: when some issue among the first 100
    non-Resolved issues of the category (in insertion order) contains the
    moderated summary as a case-insensitive substring, the first such issue
    [e] has its frequency count incremented by exactly 1 in place, its id is
    returned, and nothing else in the store changes (no issue is created). *)
Theorem submit_duplicate_bumps_frequency `{Externals} fb u w k e :
  role u = "Student" →
  is_appropriate (moderation_of w (fs_text fb)) = true →
  unique_ids w →
  candidates (fs_category fb) w !! k = Some e →
  similar (moderation_of w (fs_text fb)) e = true →
  (∀ k' e', k' < k → candidates (fs_category fb) w !! k' = Some e' →
            similar (moderation_of w (fs_text fb)) e' = false) →
  ∃ p, issues w !! p = Some e ∧
       frequency_count (inc_frequency e) = (frequency_count e + 1)%Z ∧
       submit_feedback fb u w =
       (inr (mk_SubmitResponse "Similar issue already reported" (issue_id e)),
        set_issues (<[p := inc_frequency e]> (issues w)) (after_moderation w)).
Proof.
  intros Hu Hok Hnd Hk He Hfirst.
  assert (e ∈ issues w) as Hin.
  { eapply candidates_elem, list_elem_of_lookup_2, Hk. }
  apply list_elem_of_lookup_1 in Hin as [p Hp].
  exists p. split; [done|]. split; [done|].
  rewrite submit_feedback_eq by done. cbv zeta. rewrite Hok. simpl negb. cbv iota.
  rewrite (find_first _ _ k e Hk He Hfirst).
  by rewrite (update_first_unique issue_id inc_frequency (issues w) p e Hnd Hp).
Qed.

(** C2, witness: in a store that holds the projector issue followed by two
    issues about the canteen queue, a report about the canteen skips the
    projector issue and is counted on the first of the two, stored at
    position 1. *)
Lemma submit_duplicate_bumps_frequency_witness :
  let w := Demo.store [Demo.projector; Demo.queue 0; Demo.queue 1] in
  ∃ p, issues w !! p = Some (Demo.queue 0) ∧
       frequency_count (inc_frequency (Demo.queue 0)) = (frequency_count (Demo.queue 0) + 1)%Z ∧
       @submit_feedback Demo.externals (Demo.feedback "CANTEEN") Demo.student w =
       (inr (mk_SubmitResponse "Similar issue already reported" (issue_id (Demo.queue 0))),
        set_issues (<[p := inc_frequency (Demo.queue 0)]> (issues w)) (after_moderation w)).
Proof.
  cbv zeta.
  apply (@submit_duplicate_bumps_frequency Demo.externals
           (Demo.feedback "CANTEEN") Demo.student
           (Demo.store [Demo.projector; Demo.queue 0; Demo.queue 1]) 1 (Demo.queue 0)).
  - reflexivity.
  - reflexivity.
  - unfold unique_ids. apply (bool_decide_unpack _). vm_compute. exact I.
  - reflexivity.
  - reflexivity.
  - intros k' e' Hlt Hk'. assert (k' = 0) as -> by lia.
    injection Hk' as <-. reflexivity.
Defined.

(** C2, counterexample to the claim as stated: the projector issue is
    open, in the category, and contains the moderated summary, but it is
    the 101st candidate; the submission creates a new issue and the
    projector issue keeps its frequency count. *)
Lemma submit_duplicate_counterexample :
  let w := Demo.crowded in
  let r := @submit_feedback Demo.externals (Demo.feedback "projector") Demo.student w in
  issues w !! 100 = Some Demo.projector ∧
  open_in_category "Food" Demo.projector ∧
  @similar Demo.externals (@moderation_of Demo.externals w "projector") Demo.projector = true ∧
  fst r = inr (mk_SubmitResponse "Feedback submitted successfully" "uuid-0001") ∧
  length (issues (snd r)) = S (length (issues w)) ∧
  issues (snd r) !! 100 = Some Demo.projector ∧
  frequency_count Demo.projector = 1%Z.
Proof.
  cbv zeta. split; [reflexivity|]. split; [split; [reflexivity | discriminate]|].
  split; [reflexivity|]. split; [vm_compute; reflexivity|].
  split; [vm_compute; reflexivity|]. split; [vm_compute; reflexivity | reflexivity].
Qed.

(** ** Submission: new issues *)

Section FreshFacts.
Context `{Externals}.

(** Without a similar candidate the submission inserts [created_issue]. *)
Lemma submit_feedback_fresh fb u w :
  role u = "Student" →
  is_appropriate (moderation_of w (fs_text fb)) = true →
  (∀ e, e ∈ candidates (fs_category fb) w →
        similar (moderation_of w (fs_text fb)) e = false) →
  submit_feedback fb u w =
  (inr (mk_SubmitResponse "Feedback submitted successfully"
          (issue_id (created_issue fb u w))),
   mk_World (issues w ++ [created_issue fb u w]) (issue_updates w)
     (3 + clock_reads w) (2 + uuid_draws w)).
Proof.
  intros Hu Hok Hnone. rewrite submit_feedback_eq by done. cbv zeta.
  rewrite Hok. simpl negb. cbv iota. by rewrite find_none.
Qed.

Lemma created_issue_role fb u w :
  head (get_role_hierarchy (category (created_issue fb u w))) =
  Some (assigned_role (created_issue fb u w)).
Proof.
  unfold created_issue. cbn [category assigned_role].
  by destruct (hierarchy_head (fs_category fb)) as (r & rest & ->).
Qed.

End FreshFacts.

(** C4, as amended.  A submission by a student that passes moderation and
    matches no non-Resolved issue of its category creates exactly one new
    issue, appended to the store: status Open, frequency count 1, assigned
    role the first element of the category's chain, urgency score and
    summary from the moderation result, original text verbatim.  Its SLA
    deadline is the clock reading taken for the deadline plus 2 days; the
    creation timestamp is the next clock reading, so the deadline is the
    creation timestamp plus 2 days whenever those two readings agree. *)
Theorem submit_creates_issue `{Externals} fb u w :
  role u = "Student" →
  is_appropriate (moderation_of w (fs_text fb)) = true →
  (∀ e, e ∈ issues w → open_in_category (fs_category fb) e →
        similar (moderation_of w (fs_text fb)) e = false) →
  ∃ new,
    submit_feedback fb u w =
    (inr (mk_SubmitResponse "Feedback submitted successfully" (issue_id new)),
     mk_World (issues w ++ [new]) (issue_updates w) (3 + clock_reads w) (2 + uuid_draws w)) ∧
    category new = fs_category fb ∧
    status new = "Open" ∧
    frequency_count new = 1%Z ∧
    head (get_role_hierarchy (category new)) = Some (assigned_role new) ∧
    urgency_score new = m_urgency_score (moderation_of w (fs_text fb)) ∧
    summary new = m_summary (moderation_of w (fs_text fb)) ∧
    original_text new = fs_text fb ∧
    sla_deadline new =
      DateTime.isoformat (DateTime.add_days 2 (utcnow (1 + clock_reads w))) ∧
    created_at new = DateTime.isoformat (utcnow (2 + clock_reads w)) ∧
    (utcnow (2 + clock_reads w) = utcnow (1 + clock_reads w) →
     sla_deadline new =
       DateTime.isoformat (DateTime.add_days 2 (utcnow (2 + clock_reads w)))).
Proof.
  intros Hu Hok Hnone. exists (created_issue fb u w).
  split.
  { apply submit_feedback_fresh; [done..|].
    intros e He. apply candidates_elem in He as [Hin Hopen]. by apply Hnone. }
  repeat split; try reflexivity.
  - apply created_issue_role.
  - intros Hsame. cbn [created_issue sla_deadline].
    change (1 + clock_reads w) with (S (clock_reads w)) in Hsame.
    by rewrite <- Hsame.
Qed.

(** C4, witness: a report about the wifi in a store that holds an open
    Food issue about the projector and a resolved one, with a clock that
    stands still. *)
Lemma submit_creates_issue_witness :
  ∃ new,
    @submit_feedback Demo.frozen (Demo.feedback "wifi down") Demo.student
      (Demo.store [Demo.projector; Demo.closed]) =
    (inr (mk_SubmitResponse "Feedback submitted successfully" (issue_id new)),
     mk_World [Demo.projector; Demo.closed; new] [] 3 2) ∧
    category new = "Food" ∧
    status new = "Open" ∧
    frequency_count new = 1%Z ∧
    head (get_role_hierarchy (category new)) = Some (assigned_role new) ∧
    assigned_role new = "Staff" ∧
    urgency_score new = 40%Z ∧
    summary new = "wifi down" ∧
    original_text new = "wifi down" ∧
    sla_deadline new = "2026-11-05T10:00:00+00:00" ∧
    created_at new = "2026-11-03T10:00:00+00:00".
Proof.
  destruct (@submit_creates_issue Demo.frozen (Demo.feedback "wifi down") Demo.student
              (Demo.store [Demo.projector; Demo.closed]))
    as (new & Hrun & Hcat & Hst & Hfreq & Hrole & Hurg & Hsum & Htext & Hsla & Hcreated & _).
  - reflexivity.
  - reflexivity.
  - intros e He [_ Hopen].
    apply elem_of_cons in He as [-> | He]; [reflexivity|].
    apply list_elem_of_singleton in He as ->. by destruct Hopen.
  - exists new. split; [exact Hrun|]. split; [exact Hcat|]. split; [exact Hst|].
    split; [exact Hfreq|]. split; [exact Hrole|].
    split; [rewrite Hcat in Hrole; by injection Hrole|].
    split; [exact Hurg|]. split; [exact Hsum|]. split; [exact Htext|].
    split; [exact Hsla | exact Hcreated].
Defined.

(** C4, counterexample to the claim as stated: with a clock that moves
    between two readings, the stored deadline is not the stored creation
    time plus 2 days. *)
Lemma submit_deadline_counterexample :
  let r := @submit_feedback Demo.externals (Demo.feedback "wifi down") Demo.student
             (Demo.store []) in
  ∃ new,
    issues (snd r) = [new] ∧
    created_at new = DateTime.isoformat (Demo.clock 2) ∧
    created_at new = "2026-11-03T10:00:00.000002+00:00" ∧
    sla_deadline new = "2026-11-05T10:00:00.000001+00:00" ∧
    sla_deadline new ≠ DateTime.isoformat (DateTime.add_days 2 (Demo.clock 2)).
Proof.
  cbv zeta. eexists. split; [vm_compute; reflexivity|].
  split; [reflexivity|]. split; [reflexivity|]. split; [reflexivity|].
  vm_compute. discriminate.
Qed.

(** C10.  The duplicate check looks at the first 100 non-Resolved issues of
    the category only: when the one similar issue among the non-Resolved
    issues of the category sits at position 100 or later, a submission by a
    student that passes moderation creates a new issue, and the similar
    issue stays in the store as it was. *)
Theorem submit_ignores_match_beyond_100 `{Externals} fb u w (k : nat) e :
  role u = "Student" →
  is_appropriate (moderation_of w (fs_text fb)) = true →
  filter (open_in_category (fs_category fb)) (issues w) !! k = Some e →
  similar (moderation_of w (fs_text fb)) e = true →
  (∀ k' e', filter (open_in_category (fs_category fb)) (issues w) !! k' = Some e' →
            similar (moderation_of w (fs_text fb)) e' = true → k' = k) →
  (100 ≤ k)%nat →
  ∃ (new : Issue) (p : nat),
    submit_feedback fb u w =
    (inr (mk_SubmitResponse "Feedback submitted successfully" (issue_id new)),
     mk_World (issues w ++ [new]) (issue_updates w) (3 + clock_reads w) (2 + uuid_draws w)) ∧
    issues w !! p = Some e ∧
    (issues w ++ [new])%list !! p = Some e.
Proof.
  intros Hu Hok Hk He Honly Hfar.
  assert (e ∈ issues w) as Hin.
  { apply list_elem_of_lookup_2, list_elem_of_filter in Hk. tauto. }
  apply list_elem_of_lookup_1 in Hin as [p Hp].
  exists (created_issue fb u w), p. split; [|split; [done | by apply lookup_app_l_Some]].
  apply submit_feedback_fresh; [done..|].
  intros e' He'. unfold candidates in He'.
  apply elem_of_take in He' as (k' & Hk' & Hlt).
  destruct (similar (moderation_of w (fs_text fb)) e') eqn:Hsim; [|done].
  specialize (Honly k' e' Hk' Hsim). lia.
Qed.

(** C10, witness: the projector issue is candidate number 100 (counting
    from 0) and the only similar one. *)
Lemma submit_ignores_match_beyond_100_witness :
  ∃ (new : Issue) (p : nat),
    @submit_feedback Demo.externals (Demo.feedback "projector") Demo.student Demo.crowded =
    (inr (mk_SubmitResponse "Feedback submitted successfully" (issue_id new)),
     mk_World (issues Demo.crowded ++ [new]) [] 3 2) ∧
    issues Demo.crowded !! p = Some Demo.projector ∧
    (issues Demo.crowded ++ [new])%list !! p = Some Demo.projector.
Proof.
  apply (@submit_ignores_match_beyond_100 Demo.externals (Demo.feedback "projector")
           Demo.student Demo.crowded 100 Demo.projector).
  - reflexivity.
  - reflexivity.
  - vm_compute. reflexivity.
  - reflexivity.
  - intros k' e' Hk' Hsim.
    destruct (decide (k' = 100)) as [|Hne]; [done | exfalso].
    assert (k' < 100 ∨ 100 < k') as [Hlt | Hgt] by lia.
    + assert (filter (open_in_category "Food") (issues Demo.crowded) !! k' =
              Some (Demo.queue k')) as Hq.
      { do 100 (destruct k' as [|k']; [vm_compute; reflexivity|]). lia. }
      change (fs_category (Demo.feedback "projector")) with "Food" in Hk'.
      rewrite Hq in Hk'. injection Hk' as <-. vm_compute in Hsim. discriminate Hsim.
    + assert (filter (open_in_category "Food") (issues Demo.crowded) !! k' = None) as Hq.
      { apply lookup_ge_None. vm_compute. vm_compute in Hgt. lia. }
      change (fs_category (Demo.feedback "projector")) with "Food" in Hk'.
      rewrite Hq in Hk'. discriminate Hk'.
  - lia.
Defined.

(** ** Submission: moderation *)

(** C6.  When the gateway reports the text of a student's submission as
    inappropriate, [submit_feedback] raises ContentRejected and both
    collections of the store are as before: no issue is created, none is
    touched. *)
Theorem submit_rejects_inappropriate `{Externals} fb u w m :
  role u = "Student" →
  gemini (uuid4 (uuid_draws w)) (fs_text fb) = Some m →
  is_appropriate m = false →
  fst (submit_feedback fb u w) = inl ContentRejected ∧
  same_store w (snd (submit_feedback fb u w)).
Proof.
  intros Hu Hm Hbad. rewrite submit_feedback_eq by done. cbv zeta.
  unfold moderation_of. rewrite Hm, Hbad. simpl. by split.
Qed.

(** C6, witness: the demo gateway flags the text [abuse]. *)
Lemma submit_rejects_inappropriate_witness :
  fst (@submit_feedback Demo.externals (Demo.feedback "abuse") Demo.student Demo.crowded) =
    inl ContentRejected ∧
  same_store Demo.crowded
    (snd (@submit_feedback Demo.externals (Demo.feedback "abuse") Demo.student Demo.crowded)).
Proof.
  apply (@submit_rejects_inappropriate Demo.externals (Demo.feedback "abuse") Demo.student
           Demo.crowded (mk_Moderation false "" 90 "abuse")); reflexivity.
Defined.

(** C7.  When the gateway call raises during a student's submission,
    [moderate_with_gemini] returns the permissive fallback (appropriate,
    urgency 50, summary the first 100 characters of the text), and
    [submit_feedback] does not raise: it either reports a duplicate of a
    candidate similar to the truncated text, or creates an issue whose
    summary is the truncated text and whose urgency score is 50.  The
    truncated text is the text cut between two code points after
    min(100, len(text)) of them: the whole text when it has at most 100. *)
Theorem submit_survives_gateway_failure `{Externals} fb u w :
  role u = "Student" →
  gemini (uuid4 (uuid_draws w)) (fs_text fb) = None →
  moderate_with_gemini (fs_text fb) w =
    (inr (mk_Moderation true (fs_text fb) 50 (PyStr.slice_to 100 (fs_text fb))),
     after_moderation w) ∧
  cut_of (PyStr.slice_to 100 (fs_text fb)) (fs_text fb) ∧
  PyStr.len (PyStr.slice_to 100 (fs_text fb)) = 100 `min` PyStr.len (fs_text fb) ∧
  ((PyStr.len (fs_text fb) ≤ 100)%nat → PyStr.slice_to 100 (fs_text fb) = fs_text fb) ∧
  succeeded (fst (submit_feedback fb u w)) ∧
  ((∃ e, e ∈ candidates (fs_category fb) w ∧
         similar (fallback_moderation (fs_text fb)) e = true ∧
         fst (submit_feedback fb u w) =
           inr (mk_SubmitResponse "Similar issue already reported" (issue_id e)) ∧
         length (issues (snd (submit_feedback fb u w))) = length (issues w)) ∨
   (∃ new, issues (snd (submit_feedback fb u w)) = (issues w ++ [new])%list ∧
           fst (submit_feedback fb u w) =
             inr (mk_SubmitResponse "Feedback submitted successfully" (issue_id new)) ∧
           summary new = PyStr.slice_to 100 (fs_text fb) ∧
           urgency_score new = 50%Z ∧
           original_text new = fs_text fb ∧
           status new = "Open")).
Proof.
  intros Hu Hfail.
  assert (moderation_of w (fs_text fb) = fallback_moderation (fs_text fb)) as Hm.
  { unfold moderation_of. by rewrite Hfail. }
  split; [by rewrite moderate_with_gemini_eq, Hm|].
  split; [apply slice_to_cut|]. split; [apply slice_to_len|].
  split; [apply slice_to_all|].
  rewrite submit_feedback_eq by done. cbv zeta. rewrite Hm. simpl negb. cbv iota.
  destruct (List.find _ _) as [e|] eqn:Hfind.
  - apply find_some_elem in Hfind as [Hin Hsim].
    split; [exact I|]. left. exists e. repeat split; try done.
    simpl. apply update_first_length.
  - split; [exact I|]. right. exists (created_issue fb u w).
    unfold created_issue. rewrite Hm. by repeat split.
Qed.

(** C7, witness: with the gateway down, a student sends 120 accented
    letters (240 bytes); the summary of the new issue is the first 100 of
    them (200 bytes), and the text is stored whole. *)
Lemma submit_survives_gateway_failure_witness :
  let text := Demo.times 120 Demo.e_acute in
  let cut := Demo.times 100 Demo.e_acute in
  let r := @submit_feedback Demo.offline (Demo.feedback text) Demo.student Demo.crowded in
  @moderate_with_gemini Demo.offline text Demo.crowded =
    (inr (mk_Moderation true text 50 cut), after_moderation Demo.crowded) ∧
  cut_of cut text ∧
  PyStr.len cut = 100%nat ∧
  ((120 ≤ 100)%nat → cut = text) ∧
  succeeded (fst r) ∧
  ((∃ e, e ∈ candidates "Food" Demo.crowded ∧
         @similar Demo.offline (@fallback_moderation text) e = true ∧
         fst r = inr (mk_SubmitResponse "Similar issue already reported" (issue_id e)) ∧
         length (issues (snd r)) = length (issues Demo.crowded)) ∨
   (∃ new, issues (snd r) = (issues Demo.crowded ++ [new])%list ∧
           fst r = inr (mk_SubmitResponse "Feedback submitted successfully" (issue_id new)) ∧
           summary new = cut ∧
           urgency_score new = 50%Z ∧
           original_text new = text ∧
           status new = "Open")).
Proof.
  cbv zeta.
  apply (@submit_survives_gateway_failure Demo.offline
           (Demo.feedback (Demo.times 120 Demo.e_acute)) Demo.student Demo.crowded);
    reflexivity.
Defined.

(** ** Updates *)

(** C5.  For a caller allowed to add updates (any role but Student), in a
    store with unique issue ids: on an existing issue, whatever its status,
    [add_update] appends one update carrying the caller's role and content
    and sets the status of that issue to In Progress, leaving the other
    issues alone; on an id that no issue carries it raises NotFound and the
    world is unchanged.  The issue stored in place of [i] has status
    "In Progress" and the role, frequency count and creation-time fields
    of [i]. *)
Theorem add_update_spec `{Externals} (x : string) upd u w :
  role u ≠ "Student" →
  (∀ (p : nat) i, unique_ids w → issues w !! p = Some i → issue_id i = x →
     add_update x upd u w =
     (inr "Update added successfully",
      mk_World (<[p := set_status "In Progress" i]> (issues w))
        (issue_updates w ++
           [mk_IssueUpdate (uuid4 (uuid_draws w)) x (role u) (uc_content_type upd)
              (uc_content_text upd) None (DateTime.isoformat (utcnow (clock_reads w)))])
        (S (clock_reads w)) (S (uuid_draws w))) ∧
     status (set_status "In Progress" i) = "In Progress" ∧
     assigned_role (set_status "In Progress" i) = assigned_role i ∧
     frequency_count (set_status "In Progress" i) = frequency_count i ∧
     fixed_fields (set_status "In Progress" i) = fixed_fields i) ∧
  ((∀ i, i ∈ issues w → issue_id i ≠ x) →
     add_update x upd u w = (inl NotFound, w)).
Proof.
  intros Hu. split.
  - intros p i Hnd Hp <-. split; [|by repeat split]. unfold add_update.
    rewrite decide_False by done.
    unfold bind at 1, find_one_issue at 1.
    rewrite (find_one_unique issue_id (issues w) p i Hnd Hp).
    unfold bind, new_IssueUpdate, bind, new_uuid, now, insert_issue_update,
      update_one_issue, set_issue_updates, set_issues, ret. cbn.
    by rewrite (update_first_unique issue_id _ (issues w) p i Hnd Hp).
  - intros Habsent. unfold add_update.
    rewrite decide_False by done.
    unfold bind at 1, find_one_issue at 1.
    by rewrite (find_one_absent issue_id (issues w) x Habsent).
Qed.

(** C5, witness: an admin comments on a resolved issue, which is stored
    as In Progress, then on an id that does not exist. *)
Lemma add_update_spec_witness :
  let upd := mk_UpdateCreate "text" (Some "reopened") in
  let w := Demo.store [Demo.top; Demo.closed] in
  (@add_update Demo.externals "i4" upd Demo.admin w =
     (inr "Update added successfully",
      mk_World [Demo.top; Demo.issue "i4" "Food" "cold lunch" "In Progress" "Admin"]
        [mk_IssueUpdate "uuid-0000" "i4" "Admin" "text" (Some "reopened") None
           "2026-11-03T10:00:00+00:00"] 1 1) ∧
   status (set_status "In Progress" Demo.closed) = "In Progress" ∧
   assigned_role (set_status "In Progress" Demo.closed) = "Admin" ∧
   frequency_count (set_status "In Progress" Demo.closed) = 1%Z ∧
   fixed_fields (set_status "In Progress" Demo.closed) = fixed_fields Demo.closed) ∧
  @add_update Demo.externals "i9" upd Demo.admin w = (inl NotFound, w).
Proof.
  cbv zeta.
  destruct (@add_update_spec Demo.externals "i4" (mk_UpdateCreate "text" (Some "reopened"))
              Demo.admin (Demo.store [Demo.top; Demo.closed])) as [Hfound _];
    [discriminate|].
  destruct (@add_update_spec Demo.externals "i9" (mk_UpdateCreate "text" (Some "reopened"))
              Demo.admin (Demo.store [Demo.top; Demo.closed])) as [_ Habsent];
    [discriminate|].
  split.
  - apply (Hfound 1 Demo.closed); [|reflexivity..].
    unfold unique_ids. apply (bool_decide_unpack _). vm_compute. exact I.
  - apply Habsent. intros i Hi.
    repeat (apply elem_of_cons in Hi as [-> | Hi]; [discriminate|]).
    by apply elem_of_nil in Hi.
Defined.

(** ** Listings *)

Lemma without_token_no_token l : Forall no_token (without_token l).
Proof.
  unfold without_token. apply Forall_fmap, Forall_forall. intros i _.
  unfold no_token, project_out. simpl.
  rewrite lookup_delete_ne by done. apply lookup_delete_eq.
Qed.

Lemma update_doc_no_token u : no_token (project_out ["_id"] (update_doc u)).
Proof. unfold no_token, project_out. simpl. rewrite lookup_delete_ne by done. reflexivity. Qed.

(** C8.  Whoever calls and whatever the store holds, the issue records
    returned by [get_my_issues], [get_all_issues] and [get_issue] have no
    [anon_token] key; the update records of [get_issue] have none either.
    In particular this holds for every staff role. *)
Theorem responses_omit_anon_token `{Externals} u (x : string) w :
  Forall no_token (listed (fst (get_my_issues u w))) ∧
  Forall no_token (listed (fst (get_all_issues u w))) ∧
  match fst (get_issue x u w) with
  | inr detail => no_token (d_issue detail) ∧ Forall no_token (d_updates detail)
  | inl _ => True
  end.
Proof.
  split; [|split].
  - unfold get_my_issues. repeat case_decide; apply without_token_no_token.
  - unfold get_all_issues. case_decide; [constructor | apply without_token_no_token].
  - unfold get_issue, bind at 1, find_one_issue at 1.
    destruct (head _) as [i|]; [|exact I]. simpl. split.
    + rewrite <- (Forall_singleton no_token). apply (without_token_no_token [i]).
    + apply Forall_fmap, Forall_forall. intros v _. apply update_doc_no_token.
Qed.

(** ** Anonymity token *)

Lemma strftime_same_day t1 t2 :
  DateTime.same_day t1 t2 → DateTime.strftime_Ymd t1 = DateTime.strftime_Ymd t2.
Proof. intros (Hy & Hm & Hd). unfold DateTime.strftime_Ymd. by rewrite Hy, Hm, Hd. Qed.

(** C9.  Two evaluations of [generate_anon_token] for one identity whose
    clock readings fall in the same UTC calendar day return the same token.
    Consequently the token stored in an issue that [submit_feedback] has
    just created equals the token of any lookup by the same student on the
    day of the submission. *)
Theorem anon_token_stable_within_day `{Externals} fb u w r w' new w1 w2 :
  DateTime.same_day (utcnow (clock_reads w1)) (utcnow (clock_reads w2)) →
  fst (generate_anon_token (uid u) w1) = fst (generate_anon_token (uid u) w2) ∧
  (submit_feedback fb u w = (inr r, w') →
   issues w' = (issues w ++ [new])%list →
   DateTime.same_day (utcnow (clock_reads w)) (utcnow (clock_reads w2)) →
   fst (generate_anon_token (uid u) w2) = inr (anon_token new)).
Proof.
  intros Hday. split.
  - rewrite !generate_anon_token_eq. simpl. unfold token_at.
    by rewrite (strftime_same_day _ _ Hday).
  - intros Hsubmit Hnew Hday'.
    destruct (decide (role u = "Student")) as [Hu | Hu].
    + rewrite submit_feedback_eq in Hsubmit by done. cbv zeta in Hsubmit.
      destruct (negb _); [discriminate Hsubmit|].
      destruct (List.find _ _) as [e|].
      * injection Hsubmit as _ <-. simpl in Hnew.
        apply (f_equal length) in Hnew.
        rewrite update_first_length, length_app in Hnew. simpl in Hnew. lia.
      * injection Hsubmit as _ <-. simpl in Hnew.
        apply app_inv_head in Hnew. injection Hnew as <-.
        rewrite generate_anon_token_eq. simpl. unfold token_at.
        by rewrite (strftime_same_day _ _ Hday').
    + unfold submit_feedback in Hsubmit. rewrite decide_True in Hsubmit by done.
      discriminate Hsubmit.
Qed.

(** C9, witness: a submission at the first clock reading and a lookup five
    readings later, on 3 November 2026. *)
Lemma anon_token_stable_within_day_witness :
  let fb := Demo.feedback "wifi down" in
  let w := Demo.store [] in
  let w2 := mk_World [] [] 5 0 in
  let new := @created_issue Demo.externals fb Demo.student w in
  DateTime.same_day (Demo.clock 0) (Demo.clock 5) ∧
  fst (@generate_anon_token Demo.externals "u1" w) =
  fst (@generate_anon_token Demo.externals "u1" w2) ∧
  @submit_feedback Demo.externals fb Demo.student w =
    (inr (mk_SubmitResponse "Feedback submitted successfully" "uuid-0001"),
     mk_World [new] [] 3 2) ∧
  fst (@generate_anon_token Demo.externals "u1" w2) = inr (anon_token new) ∧
  anon_token new = "u120261103".
Proof.
  cbv zeta.
  assert (DateTime.same_day (Demo.clock 0) (Demo.clock 5)) as Hday by (by repeat split).
  destruct (@anon_token_stable_within_day Demo.externals (Demo.feedback "wifi down")
              Demo.student (Demo.store [])
              (mk_SubmitResponse "Feedback submitted successfully" "uuid-0001")
              (mk_World [@created_issue Demo.externals (Demo.feedback "wifi down")
                           Demo.student (Demo.store [])] [] 3 2)
              (@created_issue Demo.externals (Demo.feedback "wifi down")
                 Demo.student (Demo.store []))
              (Demo.store []) (mk_World [] [] 5 0) Hday) as [Hsame Hlookup].
  split; [exact Hday|]. split; [exact Hsame|]. split; [reflexivity|].
  split; [|reflexivity].
  apply Hlookup; [reflexivity | reflexivity | exact Hday].
Defined.

(** ** The SLA sweep *)

Lemma filter_none {A} (P : A → Prop) `{∀ a, Decision (P a)} (l : list A) :
  (∀ a, a ∈ l → ¬ P a) → filter P l = [].
Proof.
  induction l as [|b l IH]; intros Hl; [done|].
  rewrite filter_cons_False by (apply Hl; left).
  apply IH. intros a Ha. apply Hl. by right.
Qed.

Lemma update_first_middle {A} (q : A → Prop) `{∀ a, Decision (q a)} (f : A → A) pre a post :
  (∀ b, b ∈ pre → ¬ q b) → q a →
  update_first q f (pre ++ a :: post) = (pre ++ f a :: post)%list.
Proof.
  intros Hpre Ha. induction pre as [|b pre IH]; simpl.
  - by rewrite decide_True.
  - rewrite decide_False by (apply Hpre; left).
    rewrite IH; [done|]. intros c Hc. apply Hpre. by right.
Qed.

Section SweepFacts.
Context `{Externals}.

Lemma sweep_loop_escalate j rest n w next_role :
  below_ceiling j →
  PyList.getitem (get_role_hierarchy (category j))
    (current_index (get_role_hierarchy (category j)) (assigned_role j) + 1) = Some next_role →
  sweep_loop (j :: rest) n w =
  sweep_loop rest (n + 1)
    (mk_World
       (update_first (λ i, issue_id i = issue_id j) (set_role_status next_role "Escalated")
          (issues w))
       (issue_updates w ++ [sweep_entry j next_role w])
       (S (clock_reads w)) (S (uuid_draws w))).
Proof.
  intros Hlt Hnext. unfold below_ceiling in Hlt. simpl sweep_loop.
  apply Z.ltb_lt in Hlt. rewrite Hlt, Hnext. reflexivity.
Qed.

Lemma sweep_loop_skip j rest n w :
  ¬ below_ceiling j → sweep_loop (j :: rest) n w = sweep_loop rest n w.
Proof.
  intros Hge. unfold below_ceiling in Hge. simpl sweep_loop.
  apply Z.ltb_nlt in Hge. by rewrite Hge.
Qed.

(** The sweep leaves alone every issue whose id is not the id of a
    fetched issue below its ceiling. *)
Lemma sweep_loop_untouched found n w p i :
  issues w !! p = Some i →
  (∀ j, j ∈ found → below_ceiling j → issue_id j ≠ issue_id i) →
  issues (snd (sweep_loop found n w)) !! p = Some i ∧
  updates_of (issue_id i) (snd (sweep_loop found n w)) = updates_of (issue_id i) w.
Proof.
  revert n w. induction found as [|j found IH]; intros n w Hp Hids; [done|].
  assert (∀ j', j' ∈ found → below_ceiling j' → issue_id j' ≠ issue_id i) as Hrest.
  { intros j' Hj'. apply Hids. by right. }
  destruct (decide (below_ceiling j)) as [Hlt | Hge].
  - destruct (getitem_next _ _ Hlt) as (next_role & Hnext & _).
    rewrite (sweep_loop_escalate j found n w next_role Hlt Hnext).
    assert (issue_id j ≠ issue_id i) as Hne by (apply Hids; [left | done]).
    match goal with |- context [sweep_loop found _ ?w1] => set (w' := w1) end.
    destruct (IH (n + 1)%Z w') as [Hi Hu]; [|done|].
    { subst w'. simpl. apply (update_first_lookup_ne issue_id); [done | congruence]. }
    split; [done|]. rewrite Hu. subst w'. unfold updates_of. simpl.
    rewrite filter_app, filter_cons_False, filter_nil, app_nil_r; [done|].
    simpl. done.
  - rewrite (sweep_loop_skip j found n w Hge). by apply IH.
Qed.

(** The sweep never changes the id of a stored issue. *)
Lemma sweep_loop_ids found n w :
  issue_id <$> issues (snd (sweep_loop found n w)) = issue_id <$> issues w.
Proof.
  revert n w. induction found as [|j found IH]; intros n w; [done|].
  destruct (decide (below_ceiling j)) as [Hlt | Hge].
  - destruct (getitem_next _ _ Hlt) as (next_role & Hnext & _).
    rewrite (sweep_loop_escalate j found n w next_role Hlt Hnext), IH. simpl.
    by apply (update_first_keys issue_id).
  - by rewrite (sweep_loop_skip j found n w Hge).
Qed.

(** The loop over a concatenation runs the second part in the world the
    first part leaves. *)
Lemma sweep_loop_app found1 found2 n w :
  ∃ n', sweep_loop (found1 ++ found2) n w =
        sweep_loop found2 n' (snd (sweep_loop found1 n w)).
Proof.
  revert n w. induction found1 as [|j found1 IH]; intros n w.
  - by exists n.
  - rewrite <- app_comm_cons. destruct (decide (below_ceiling j)) as [Hlt | Hge].
    + destruct (getitem_next _ _ Hlt) as (next_role & Hnext & _).
      rewrite !(sweep_loop_escalate j _ n w next_role Hlt Hnext). apply IH.
    + rewrite !(sweep_loop_skip j _ n w Hge). apply IH.
Qed.

(** The sweep moves a fetched issue below its ceiling to the next role. *)
Lemma sweep_loop_moves found n w p i next_role :
  unique_ids w →
  issues w !! p = Some i →
  i ∈ found →
  NoDup (issue_id <$> found) →
  below_ceiling i →
  PyList.getitem (get_role_hierarchy (category i))
    (current_index (get_role_hierarchy (category i)) (assigned_role i) + 1) = Some next_role →
  issues (snd (sweep_loop found n w)) !! p = Some (set_role_status next_role "Escalated" i).
Proof.
  intros Hnd Hp Hin Hfound Hlt Hnext.
  apply list_elem_of_split in Hin as (f1 & f2 & ->).
  rewrite fmap_app, fmap_cons in Hfound.
  apply NoDup_app in Hfound as (_ & Hf1 & Hf2). apply NoDup_cons in Hf2 as [Hf2 _].
  destruct (sweep_loop_app f1 (i :: f2) n w) as [n' ->].
  set (w1 := snd (sweep_loop f1 n w)).
  assert (issues w1 !! p = Some i) as Hp1.
  { eapply proj1, sweep_loop_untouched; [done|].
    intros j Hj _ Hid. apply (Hf1 (issue_id j)).
    - apply list_elem_of_fmap. by exists j.
    - rewrite Hid. left. }
  assert (unique_ids w1) as Hnd1.
  { unfold unique_ids, w1. by rewrite sweep_loop_ids. }
  rewrite (sweep_loop_escalate i f2 n' w1 next_role Hlt Hnext).
  eapply proj1, sweep_loop_untouched.
  - simpl. rewrite (update_first_unique issue_id _ (issues w1) p i Hnd1 Hp1).
    apply list_lookup_insert_eq. by apply lookup_lt_Some in Hp1.
  - intros j Hj _ Hid. simpl in Hid. apply Hf2.
    apply list_elem_of_fmap. by exists j.
Qed.

(** A sweep that selects nothing only reads the clock. *)
Lemma check_escalation_idle w :
  filter (overdue (DateTime.isoformat (utcnow (clock_reads w)))) (issues w) = [] →
  check_escalation w =
  (inr 0%Z, mk_World (issues w) (issue_updates w) (S (clock_reads w)) (uuid_draws w)).
Proof.
  intros Hnone. unfold check_escalation, bind at 1, now at 1. cbv zeta.
  unfold bind at 1, find_issues at 1. cbn [issues]. by rewrite Hnone.
Qed.

End SweepFacts.

(** ** Escalation at the ceiling *)

(** C1, as amended.  In a store with unique issue ids and for a caller
    allowed to escalate (any role but Student): when the assigned role of
    an issue is the last entry of its category's chain, [escalate_issue]
    raises AtCeiling and the world is unchanged, and [check_escalation]
    leaves the issue and its update log as they were.  When the assigned
    role does not occur in the chain, its index counts as -1:
    [escalate_issue] succeeds and moves the issue to the first entry of the
    chain with status Escalated, and so does [check_escalation] when the
    issue is among the documents it fetches.  The issue stored in place
    of [i] carries that first entry as its role and the status
    "Escalated", and is [i] in every other field. *)
Theorem escalate_at_ceiling_fails_closed `{Externals} w (p : nat) i req u :
  unique_ids w →
  issues w !! p = Some i →
  role u ≠ "Student" →
  (at_last_position i →
     escalate_issue (issue_id i) req u w = (inl AtCeiling, w) ∧
     issues (snd (check_escalation w)) !! p = Some i ∧
     updates_of (issue_id i) (snd (check_escalation w)) = updates_of (issue_id i) w) ∧
  (absent_from_chain i →
     ∃ first rest,
       get_role_hierarchy (category i) = first :: rest ∧
       fst (escalate_issue (issue_id i) req u w) = inr ("Issue escalated to " +:+ first) ∧
       issues (snd (escalate_issue (issue_id i) req u w)) =
         <[p := set_role_status first "Escalated" i]> (issues w) ∧
       assigned_role (set_role_status first "Escalated" i) = first ∧
       status (set_role_status first "Escalated" i) = "Escalated" ∧
       frequency_count (set_role_status first "Escalated" i) = frequency_count i ∧
       fixed_fields (set_role_status first "Escalated" i) = fixed_fields i ∧
       (i ∈ take 1000 (filter (overdue (DateTime.isoformat (utcnow (clock_reads w))))
                         (issues w)) →
        issues (snd (check_escalation w)) !! p =
          Some (set_role_status first "Escalated" i))).
Proof.
  intros Hnd Hp Hu. split.
  - intros Hlast. pose proof (current_index_last _ _ Hlast) as Hidx. split.
    + unfold escalate_issue. rewrite decide_False by done.
      unfold bind at 1, find_one_issue at 1.
      rewrite (find_one_unique issue_id (issues w) p i Hnd Hp). cbv zeta.
      rewrite Hidx, Z.leb_refl. reflexivity.
    + unfold check_escalation, bind at 1, now at 1. cbv zeta.
      unfold bind at 1, find_issues at 1.
      match goal with
      | |- context [sweep_loop ?l _ ?w1] =>
          destruct (sweep_loop_untouched l 0%Z w1 p i) as [Hi Hupd]
      end.
      * done.
      * intros j Hj Hbelow Hid. simpl in Hj.
        apply elem_of_take in Hj as (k & Hk & _).
        apply list_elem_of_lookup_2, list_elem_of_filter in Hk as [_ Hin].
        apply list_elem_of_lookup_1 in Hin as [q Hq].
        assert (q = p) as -> by (eapply (NoDup_key_lookup_inj issue_id); eauto).
        assert (j = i) as -> by congruence.
        unfold below_ceiling in Hbelow. lia.
      * split; [exact Hi | exact Hupd].
  - intros Habsent. destruct (hierarchy_head (category i)) as (first & rest & Hh).
    exists first, rest. split; [done|].
    assert (PyList.getitem (get_role_hierarchy (category i))
              (current_index (get_role_hierarchy (category i)) (assigned_role i) + 1)
            = Some first) as Hget.
    { by rewrite (current_index_absent _ _ Habsent), Hh. }
    assert (below_ceiling i) as Hbelow.
    { unfold below_ceiling. rewrite (current_index_absent _ _ Habsent), Hh.
      simpl length. lia. }
    assert (∃ log reads draws,
              escalate_issue (issue_id i) req u w =
              (inr ("Issue escalated to " +:+ first),
               mk_World (<[p := set_role_status first "Escalated" i]> (issues w))
                 log reads draws)) as (log & reads & draws & Hrun).
    { do 3 eexists. unfold escalate_issue. rewrite decide_False by done.
      unfold bind at 1, find_one_issue at 1.
      rewrite (find_one_unique issue_id (issues w) p i Hnd Hp). cbv zeta.
      unfold below_ceiling in Hbelow.
      replace (Z.of_nat (length (get_role_hierarchy (category i))) - 1 <=?
               current_index (get_role_hierarchy (category i)) (assigned_role i))%Z
        with false by (symmetry; apply Z.leb_gt; lia).
      rewrite Hget.
      unfold bind, update_one_issue, new_IssueUpdate, bind, new_uuid, now,
        insert_issue_update, ret. cbn.
      rewrite (update_first_unique issue_id _ (issues w) p i Hnd Hp). reflexivity. }
    rewrite Hrun. split; [done|]. split; [done|].
    split; [done|]. split; [done|]. split; [done|]. split; [done|].
    intros Hfetched.
    unfold check_escalation, bind at 1, now at 1. cbv zeta.
    unfold bind at 1, find_issues at 1.
    apply sweep_loop_moves; try done.
    cbn [issues]. eapply sublist_NoDup; [exact Hnd|].
    apply fmap_sublist. etrans; [apply sublist_take | apply sublist_filter].
Qed.

(** C1, witness: an admin escalates a Hostel issue held by the Principal,
    and a Hostel issue held by a role outside the Hostel chain. *)
Lemma escalate_at_ceiling_fails_closed_witness :
  let w := Demo.store [Demo.top; Demo.stray] in
  let req := mk_EscalateRequest None in
  (@escalate_issue Demo.externals "i2" req Demo.admin w = (inl AtCeiling, w) ∧
   issues (snd (@check_escalation Demo.externals w)) !! 0 = Some Demo.top ∧
   updates_of "i2" (snd (@check_escalation Demo.externals w)) = updates_of "i2" w) ∧
  (∃ first rest,
     get_role_hierarchy "Hostel" = first :: rest ∧
     fst (@escalate_issue Demo.externals "i1" req Demo.admin w) =
       inr ("Issue escalated to " +:+ first) ∧
     issues (snd (@escalate_issue Demo.externals "i1" req Demo.admin w)) =
       <[1 := set_role_status first "Escalated" Demo.stray]> (issues w) ∧
     assigned_role (set_role_status first "Escalated" Demo.stray) = first ∧
     status (set_role_status first "Escalated" Demo.stray) = "Escalated" ∧
     frequency_count (set_role_status first "Escalated" Demo.stray) = 1%Z ∧
     fixed_fields (set_role_status first "Escalated" Demo.stray) = fixed_fields Demo.stray ∧
     issues (snd (@check_escalation Demo.externals w)) !! 1 =
       Some (set_role_status first "Escalated" Demo.stray)).
Proof.
  cbv zeta.
  assert (unique_ids (Demo.store [Demo.top; Demo.stray])) as Hnd.
  { unfold unique_ids. apply (bool_decide_unpack _). vm_compute. exact I. }
  split.
  - apply (@escalate_at_ceiling_fails_closed Demo.externals
             (Demo.store [Demo.top; Demo.stray]) 0 Demo.top (mk_EscalateRequest None)
             Demo.admin); [exact Hnd | reflexivity | discriminate | reflexivity].
  - destruct (@escalate_at_ceiling_fails_closed Demo.externals
                (Demo.store [Demo.top; Demo.stray]) 1 Demo.stray (mk_EscalateRequest None)
                Demo.admin) as [_ Habsent]; [exact Hnd | reflexivity | discriminate |].
    destruct Habsent as (first & rest & Hh & Hmsg & Hstore & Hrole & Hstatus & Hfreq &
                         Hfixed & Hsweep).
    { unfold absent_from_chain. apply (bool_decide_unpack _). vm_compute. exact I. }
    exists first, rest. split; [exact Hh|]. split; [exact Hmsg|]. split; [exact Hstore|].
    split; [exact Hrole|]. split; [exact Hstatus|]. split; [exact Hfreq|].
    split; [exact Hfixed|].
    apply Hsweep. apply (list_elem_of_lookup_2 _ 1). vm_compute. reflexivity.
Defined.

(** C1, counterexample to the claim as stated: the role Staff is absent
    from the Hostel chain, yet [escalate_issue] succeeds and rewrites the
    issue, and the sweep escalates it as well; in both cases the role wraps
    to the first entry of the chain. *)
Lemma escalate_absent_role_counterexample :
  let w := Demo.store [Demo.stray] in
  let r := @escalate_issue Demo.externals "i1" (mk_EscalateRequest None) Demo.admin w in
  let s := @check_escalation Demo.externals w in
  absent_from_chain Demo.stray ∧
  fst r = inr "Issue escalated to Warden" ∧
  fst r ≠ inl AtCeiling ∧
  issues (snd r) = [set_role_status "Warden" "Escalated" Demo.stray] ∧
  issues (snd r) ≠ issues w ∧
  fst s = inr 1%Z ∧
  issues (snd s) = [set_role_status "Warden" "Escalated" Demo.stray].
Proof.
  cbv zeta. split.
  { unfold absent_from_chain. apply (bool_decide_unpack _). vm_compute. exact I. }
  split; [reflexivity|]. split; [discriminate|]. split; [reflexivity|].
  split; [discriminate|]. split; [reflexivity | reflexivity].
Qed.

(** C3.  In a store where issue [i] is Open, past its deadline at the clock
    reading of the sweep, held by the role at position [k] of its chain with
    a next entry [next_role], and the only issue the sweep selects:
    [check_escalation] returns count 1, moves [i] to [next_role] with
    status Escalated in place, and appends exactly one update authored by
    System.  A second sweep at the same [now] returns count 0 and changes
    neither collection.  The issue stored in place of [i] has the role
    [next_role], which sits at position [k + 1] of the chain of its
    category, the status "Escalated", and the other fields of [i]. *)
Theorem sweep_escalates_overdue_once `{Externals} w pre i post (k : nat) next_role :
  issues w = (pre ++ i :: post)%list →
  status i = "Open" →
  PyStr.lt (sla_deadline i) (DateTime.isoformat (utcnow (clock_reads w))) = true →
  PyList.index (assigned_role i) (get_role_hierarchy (category i)) = Some k →
  get_role_hierarchy (category i) !! S k = Some next_role →
  (∀ j, j ∈ (pre ++ post)%list →
        ¬ overdue (DateTime.isoformat (utcnow (clock_reads w))) j) →
  (∀ j, j ∈ pre → issue_id j ≠ issue_id i) →
  fst (check_escalation w) = inr 1%Z ∧
  issues (snd (check_escalation w)) =
    (pre ++ set_role_status next_role "Escalated" i :: post)%list ∧
  assigned_role (set_role_status next_role "Escalated" i) = next_role ∧
  status (set_role_status next_role "Escalated" i) = "Escalated" ∧
  frequency_count (set_role_status next_role "Escalated" i) = frequency_count i ∧
  fixed_fields (set_role_status next_role "Escalated" i) = fixed_fields i ∧
  PyList.index (assigned_role (set_role_status next_role "Escalated" i))
    (get_role_hierarchy (category (set_role_status next_role "Escalated" i))) = Some (S k) ∧
  issue_updates (snd (check_escalation w)) =
    (issue_updates w ++
       [mk_IssueUpdate (uuid4 (uuid_draws w)) (issue_id i) "System" "text"
          (Some ("Auto-escalated to " +:+ next_role +:+ " due to SLA breach")) None
          (DateTime.isoformat (utcnow (S (clock_reads w))))])%list ∧
  (DateTime.isoformat (utcnow (clock_reads (snd (check_escalation w)))) =
   DateTime.isoformat (utcnow (clock_reads w)) →
   fst (check_escalation (snd (check_escalation w))) = inr 0%Z ∧
   same_store (snd (check_escalation w)) (snd (check_escalation (snd (check_escalation w))))).
Proof.
  intros Hw Hopen Hdue Hidx Hnext Hothers Hpre.
  set (now_iso := DateTime.isoformat (utcnow (clock_reads w))) in *.
  assert (filter (overdue now_iso) pre = []) as Hfpre.
  { apply filter_none. intros j Hj. apply Hothers, elem_of_app. by left. }
  assert (filter (overdue now_iso) post = []) as Hfpost.
  { apply filter_none. intros j Hj. apply Hothers, elem_of_app. by right. }
  assert (below_ceiling i) as Hbelow.
  { unfold below_ceiling, current_index. rewrite Hidx.
    apply lookup_lt_Some in Hnext. lia. }
  assert (PyList.getitem (get_role_hierarchy (category i))
            (current_index (get_role_hierarchy (category i)) (assigned_role i) + 1)
          = Some next_role) as Hget.
  { unfold current_index. rewrite Hidx. unfold PyList.getitem.
    replace (0 <=? Z.of_nat k + 1)%Z with true by (symmetry; apply Z.leb_le; lia).
    by replace (Z.to_nat (Z.of_nat k + 1)) with (S k) by lia. }
  assert (check_escalation w =
          (inr 1%Z,
           mk_World (pre ++ set_role_status next_role "Escalated" i :: post)
             (issue_updates w ++
                [mk_IssueUpdate (uuid4 (uuid_draws w)) (issue_id i) "System" "text"
                   (Some ("Auto-escalated to " +:+ next_role +:+ " due to SLA breach")) None
                   (DateTime.isoformat (utcnow (S (clock_reads w))))])
             (S (S (clock_reads w))) (S (uuid_draws w)))) as Hrun.
  { unfold check_escalation, bind at 1, now at 1. cbv zeta.
    unfold bind at 1, find_issues at 1. cbn [issues].
    fold now_iso. rewrite Hw, filter_app, Hfpre. simpl app.
    rewrite filter_cons_True by (split; [by left | done]).
    rewrite Hfpost. simpl take.
    rewrite (sweep_loop_escalate i [] 0 _ next_role Hbelow Hget). simpl.
    unfold ret. f_equal. unfold sweep_entry. cbn. f_equal.
    apply update_first_middle; [|done].
    intros b Hb. by apply Hpre. }
  rewrite Hrun. cbn [fst snd issues issue_updates clock_reads].
  split; [done|]. split; [done|].
  split; [done|]. split; [done|]. split; [done|]. split; [done|].
  split; [apply index_of_lookup; [apply chain_NoDup | done]|].
  split; [done|].
  intros Hsame.
  rewrite check_escalation_idle; [by repeat split|].
  cbn [issues clock_reads]. rewrite Hsame. fold now_iso.
  rewrite filter_app, Hfpre. simpl app.
  rewrite filter_cons_False; [done|].
  intros [[Hs | Hs] _]; discriminate Hs.
Qed.

(** C3, witness: a resolved Food issue and an overdue Hostel issue held by
    the Warden, swept twice with a clock that stands still. *)
Lemma sweep_escalates_overdue_once_witness :
  let w := Demo.store [Demo.closed; Demo.late] in
  let w1 := snd (@check_escalation Demo.frozen w) in
  fst (@check_escalation Demo.frozen w) = inr 1%Z ∧
  issues w1 = [Demo.closed; Demo.issue "i3" "Hostel" "leaking roof" "Escalated" "Admin"] ∧
  assigned_role (set_role_status "Admin" "Escalated" Demo.late) = "Admin" ∧
  status (set_role_status "Admin" "Escalated" Demo.late) = "Escalated" ∧
  frequency_count (set_role_status "Admin" "Escalated" Demo.late) = 1%Z ∧
  fixed_fields (set_role_status "Admin" "Escalated" Demo.late) = fixed_fields Demo.late ∧
  PyList.index "Admin" (get_role_hierarchy "Hostel") = Some 1 ∧
  issue_updates w1 =
    [mk_IssueUpdate "uuid-0000" "i3" "System" "text"
       (Some "Auto-escalated to Admin due to SLA breach") None
       "2026-11-03T10:00:00+00:00"] ∧
  fst (@check_escalation Demo.frozen w1) = inr 0%Z ∧
  same_store w1 (snd (@check_escalation Demo.frozen w1)).
Proof.
  cbv zeta.
  destruct (@sweep_escalates_overdue_once Demo.frozen (Demo.store [Demo.closed; Demo.late])
              [Demo.closed] Demo.late [] 0 "Admin")
    as (Hcount & Hissues & Hrole & Hstatus & Hfreq & Hfixed & Hpos & Hlog & Hagain).
  - reflexivity.
  - reflexivity.
  - reflexivity.
  - vm_compute. reflexivity.
  - vm_compute. reflexivity.
  - intros j Hj. apply elem_of_app in Hj as [Hj | Hj]; [|by apply elem_of_nil in Hj].
    apply list_elem_of_singleton in Hj as ->.
    intros [[Hs | Hs] _]; discriminate Hs.
  - intros j Hj. apply list_elem_of_singleton in Hj as ->. discriminate.
  - split; [exact Hcount|]. split; [exact Hissues|].
    split; [exact Hrole|]. split; [exact Hstatus|]. split; [exact Hfreq|].
    split; [exact Hfixed|]. split; [exact Hpos|]. split; [exact Hlog|].
    apply Hagain. reflexivity.
Defined.

(** ** Worked examples *)

(** The duplicate rule is literal containment, not similarity of meaning;
    on ASCII summaries every interpreter agrees on it. *)
Example similar_is_literal `{Externals} :
  similar (mk_Moderation true "" 40 "the projector in room 5 is broken")
    (Demo.issue "a1" "Academics" "projector broken in room 5" "Open" "Staff") = false ∧
  similar (mk_Moderation true "" 40 "PROJECTOR broken")
    (Demo.issue "a1" "Academics" "projector broken in room 5" "Open" "Staff") = true.
Proof. unfold similar. rewrite !str_lower_ascii by reflexivity. split; reflexivity. Qed.

(** Case is folded beyond ASCII, as [str.lower] does: the report CAFE
    with an acute capital E is a duplicate of the stored summary written
    in small letters, the first of two matching issues, and of a longer
    stored summary in small letters. *)
Example accented_duplicate :
  let small := Demo.issue "c1" "Food" ("caf" +:+ Demo.e_acute +:+ " queue") "Open" "Staff" in
  let capital := Demo.issue "c2" "Food" ("CAF" +:+ Demo.E_acute +:+ " QUEUE") "Open" "Staff" in
  let early := Demo.issue "c3" "Food" ("caf" +:+ Demo.e_acute +:+ " closed early") "Open"
                 "Staff" in
  let r := @submit_feedback Demo.externals (Demo.feedback ("CAF" +:+ Demo.E_acute))
             Demo.student (Demo.store [small; capital]) in
  let r' := @submit_feedback Demo.externals
              (Demo.feedback ("CAF" +:+ Demo.E_acute +:+ " CLOSED"))
              Demo.student (Demo.store [early]) in
  fst r = inr (mk_SubmitResponse "Similar issue already reported" "c1") ∧
  issues (snd r) = [inc_frequency small; capital] ∧
  frequency_count (inc_frequency small) = 2%Z ∧
  fst r' = inr (mk_SubmitResponse "Similar issue already reported" "c3") ∧
  issues (snd r') = [inc_frequency early].
Proof. cbv zeta. repeat split; vm_compute; reflexivity. Qed.

(** A listing keeps every field of the stored document but the token. *)
Example listing_keeps_other_fields :
  listed (fst (get_all_issues Demo.admin (Demo.store [Demo.top]))) =
  [delete "anon_token" (issue_doc Demo.top)] ∧
  issue_doc Demo.top !! "anon_token" = Some (VStr "u120261001").
Proof. split; vm_compute; reflexivity. Qed.

(** Categories outside the known set, and the known chains. *)
Example chains :
  get_role_hierarchy "Academics" = ["Staff"; "HoD"; "Admin"; "Principal"] ∧
  get_role_hierarchy "Hostel" = ["Warden"; "Admin"; "Principal"] ∧
  get_role_hierarchy "Library" = ["Staff"; "Admin"; "Principal"].
Proof. repeat split; vm_compute; reflexivity. Qed.

(** * Further properties of the routes *)

(** ** More list facts *)

Lemma update_first_absent {A} (q : A → Prop) `{∀ a, Decision (q a)} (f : A → A) l :
  (∀ a, a ∈ l → ¬ q a) → update_first q f l = l.
Proof.
  induction l as [|b l IH]; intros Hl; [done|]. simpl.
  rewrite decide_False by (apply Hl; left).
  rewrite IH; [done|]. intros a Ha. apply Hl. by right.
Qed.

Lemma update_first_fmap {A B} (g : A → B) (q : A → Prop) `{∀ a, Decision (q a)}
    (f : A → A) l :
  (∀ a, g (f a) = g a) → g <$> update_first q f l = g <$> l.
Proof.
  intros Hf. induction l as [|b l IH]; [done|].
  cbn [update_first]. case_decide; rewrite !fmap_cons; [by rewrite Hf | by rewrite IH].
Qed.

(** [update_one] rewrites the document [find_one] would return. *)
Lemma update_first_Forall {A} (P : A → Prop) (q : A → Prop) `{∀ a, Decision (q a)}
    (f : A → A) l :
  Forall P l →
  (∀ a, head (filter q l) = Some a → P (f a)) →
  Forall P (update_first q f l).
Proof.
  induction l as [|b l IH]; intros Hl Hf; [done|].
  apply Forall_cons in Hl as [Hb Hl]. simpl. case_decide as Hq.
  - apply Forall_cons. split; [|done]. apply Hf. by rewrite filter_cons_True.
  - apply Forall_cons. split; [done|]. apply IH; [done|].
    intros a Ha. apply Hf. by rewrite filter_cons_False.
Qed.


Lemma head_filter_elem {A} (q : A → Prop) `{∀ a, Decision (q a)} (l : list A) a :
  head (filter q l) = Some a → a ∈ l ∧ q a.
Proof.
  intros Ha. assert (a ∈ filter q l) as Hin.
  { destruct (filter q l); [done|]. injection Ha as ->. left. }
  apply list_elem_of_filter in Hin. tauto.
Qed.

Lemma world_eta w :
  mk_World (issues w) (issue_updates w) (clock_reads w) (uuid_draws w) = w.
Proof. by destruct w. Qed.

(** ** The escalation policy *)

(** X1.  Whatever the category, its chain has no repeated role, holds at
    least three roles, starts with Staff or Warden, ends with Admin then
    Principal, and contains neither Student nor System. *)
Theorem chain_shape c :
  NoDup (get_role_hierarchy c) ∧
  (3 ≤ length (get_role_hierarchy c))%nat ∧
  ((head (get_role_hierarchy c) = Some "Staff") ∨
   (head (get_role_hierarchy c) = Some "Warden")) ∧
  (∃ lower_roles, get_role_hierarchy c = (lower_roles ++ ["Admin"; "Principal"])%list) ∧
  ("Student" ∉ get_role_hierarchy c) ∧
  ("System" ∉ get_role_hierarchy c).
Proof.
  destruct (get_role_hierarchy_cases c) as [-> | [-> | ->]].
  - split; [apply (bool_decide_unpack _); vm_compute; exact I|].
    split; [simpl; lia|]. split; [by left|].
    split; [by exists ["Staff"; "HoD"]|].
    split; apply (bool_decide_unpack _); vm_compute; exact I.
  - split; [apply (bool_decide_unpack _); vm_compute; exact I|].
    split; [simpl; lia|]. split; [by right|].
    split; [by exists ["Warden"]|].
    split; apply (bool_decide_unpack _); vm_compute; exact I.
  - split; [apply (bool_decide_unpack _); vm_compute; exact I|].
    split; [simpl; lia|]. split; [by left|].
    split; [by exists ["Staff"]|].
    split; apply (bool_decide_unpack _); vm_compute; exact I.
Qed.

(** X2.  A category outside the six known names gets the default chain
    Staff, Admin, Principal; the lookup is case-sensitive. *)
Theorem unknown_category_chain c :
  c ∉ ["Academics"; "Hostel"; "Infrastructure"; "Food"; "Transportation"; "Other"] →
  get_role_hierarchy c = ["Staff"; "Admin"; "Principal"].
Proof. apply get_role_hierarchy_default. Qed.

(** X2, witness: the lower-case spelling of Hostel is an unknown category,
    so its issues start with Staff and not with the Warden. *)
Lemma unknown_category_chain_witness :
  get_role_hierarchy "hostel" = ["Staff"; "Admin"; "Principal"].
Proof.
  apply (unknown_category_chain "hostel").
  apply (bool_decide_unpack _). vm_compute. exact I.
Defined.

(** ** Role gates *)

(** X3.  The five routes that test the caller's role do so before they
    touch anything: [submit_feedback] refuses a caller who is not a
    Student, and [add_update], [escalate_issue], [update_status] and
    [get_all_issues] refuse a Student; each refusal is HTTP 403 and leaves
    the world unchanged.  ([check_escalation] takes no caller and has no
    such test; it is not among the five.) *)
Theorem role_gates `{Externals} u w :
  (role u ≠ "Student" →
   ∀ fb, submit_feedback fb u w = (inl (Forbidden "Only students can submit feedback"), w)) ∧
  (role u = "Student" →
   ∀ (x : string) upd req (s : string),
     add_update x upd u w = (inl (Forbidden "Students cannot update issues"), w) ∧
     escalate_issue x req u w = (inl (Forbidden "Students cannot escalate issues"), w) ∧
     update_status x s u w = (inl (Forbidden "Access denied"), w) ∧
     get_all_issues u w = (inl (Forbidden "Access denied"), w)).
Proof.
  split.
  - intros Hu fb. unfold submit_feedback. by rewrite decide_True.
  - intros Hu x upd req s. repeat split.
    + unfold add_update. by rewrite decide_True.
    + unfold escalate_issue. by rewrite decide_True.
    + unfold update_status. rewrite decide_True; [done|].
      rewrite Hu. apply (bool_decide_unpack _). vm_compute. exact I.
    + unfold get_all_issues. rewrite decide_True; [done|].
      rewrite Hu. apply (bool_decide_unpack _). vm_compute. exact I.
Qed.

(** X3, witness: an admin submitting, a student using the staff routes. *)
Lemma role_gates_witness :
  @submit_feedback Demo.externals (Demo.feedback "wifi down") Demo.admin Demo.crowded =
    (inl (Forbidden "Only students can submit feedback"), Demo.crowded) ∧
  @add_update Demo.externals "p100" (mk_UpdateCreate "text" None) Demo.student Demo.crowded =
    (inl (Forbidden "Students cannot update issues"), Demo.crowded) ∧
  @escalate_issue Demo.externals "p100" (mk_EscalateRequest None) Demo.student Demo.crowded =
    (inl (Forbidden "Students cannot escalate issues"), Demo.crowded) ∧
  update_status "p100" "Resolved" Demo.student Demo.crowded =
    (inl (Forbidden "Access denied"), Demo.crowded) ∧
  get_all_issues Demo.student Demo.crowded = (inl (Forbidden "Access denied"), Demo.crowded).
Proof.
  destruct (@role_gates Demo.externals Demo.admin Demo.crowded) as [Hsubmit _].
  destruct (@role_gates Demo.externals Demo.student Demo.crowded) as [_ Hstaff].
  split; [apply Hsubmit; discriminate|].
  apply (Hstaff eq_refl "p100" (mk_UpdateCreate "text" None) (mk_EscalateRequest None)
           "Resolved").
Defined.

(** ** Manual escalation and status changes *)



(** X5.  [update_status] is open to the five staff roles only and checks
    nothing else: it writes any string as the status of the issue, from
    any prior status, and never changes the assigned role; for an id that
    no issue carries it still answers "Status updated successfully" and
    leaves the world unchanged; any other role gets HTTP 403. *)
Theorem update_status_spec (x s : string) u w :
  (role u ∈ ["Admin"; "Principal"; "HoD"; "Warden"; "Staff"] →
   (∀ (p : nat) i, unique_ids w → issues w !! p = Some i → issue_id i = x →
      update_status x s u w =
        (inr "Status updated successfully",
         set_issues (<[p := set_status s i]> (issues w)) w) ∧
      status (set_status s i) = s ∧
      assigned_role (set_status s i) = assigned_role i) ∧
   ((∀ i, i ∈ issues w → issue_id i ≠ x) →
      update_status x s u w = (inr "Status updated successfully", w))) ∧
  (role u ∉ ["Admin"; "Principal"; "HoD"; "Warden"; "Staff"] →
   update_status x s u w = (inl (Forbidden "Access denied"), w)).
Proof.
  split.
  - intros Hu. split.
    + intros p i Hnd Hp <-. split; [|by split].
      unfold update_status. rewrite decide_False by (intros Hn; by apply Hn).
      unfold bind, update_one_issue, ret.
      by rewrite (update_first_unique issue_id _ (issues w) p i Hnd Hp).
    + intros Habsent. unfold update_status.
      rewrite decide_False by (intros Hn; by apply Hn).
      unfold bind, update_one_issue, ret.
      rewrite update_first_absent by done.
      unfold set_issues. by rewrite world_eta.
  - intros Hu. unfold update_status. by rewrite decide_True.
Qed.

(** X5, witness: a warden writes a status outside the four known ones on
    a resolved issue, then on a missing id; a dean is refused. *)
Lemma update_status_spec_witness :
  let w := Demo.store [Demo.top; Demo.closed] in
  let warden := mk_User "u3" "warden@campus.example" "Wen" "Warden" None in
  let dean := mk_User "u4" "dean@campus.example" "Dee" "Dean" None in
  update_status "i4" "Parked" warden w =
    (inr "Status updated successfully",
     set_issues [Demo.top; set_status "Parked" Demo.closed] w) ∧
  update_status "i9" "Parked" warden w = (inr "Status updated successfully", w) ∧
  update_status "i4" "Parked" dean w = (inl (Forbidden "Access denied"), w).
Proof.
  cbv zeta.
  destruct (update_status_spec "i4" "Parked"
              (mk_User "u3" "warden@campus.example" "Wen" "Warden" None)
              (Demo.store [Demo.top; Demo.closed])) as [Hstaff _].
  destruct Hstaff as [Hfound _].
  { apply (bool_decide_unpack _). vm_compute. exact I. }
  destruct (update_status_spec "i9" "Parked"
              (mk_User "u3" "warden@campus.example" "Wen" "Warden" None)
              (Demo.store [Demo.top; Demo.closed])) as [Hstaff _].
  destruct Hstaff as [_ Hmissing].
  { apply (bool_decide_unpack _). vm_compute. exact I. }
  destruct (update_status_spec "i4" "Parked"
              (mk_User "u4" "dean@campus.example" "Dee" "Dean" None)
              (Demo.store [Demo.top; Demo.closed])) as [_ Hother].
  split; [|split].
  - apply (Hfound 1 Demo.closed); [|reflexivity..].
    unfold unique_ids. apply (bool_decide_unpack _). vm_compute. exact I.
  - apply Hmissing. intros i Hi.
    repeat (apply elem_of_cons in Hi as [-> | Hi]; [discriminate|]).
    by apply elem_of_nil in Hi.
  - apply Hother. apply (bool_decide_unpack _). vm_compute. exact I.
Defined.

(** ** The role invariant *)

Lemma getitem_elem {A} (l : list A) z x : PyList.getitem l z = Some x → x ∈ l.
Proof.
  unfold PyList.getitem. repeat case_match; try done; apply list_elem_of_lookup_2.
Qed.

Lemma roles_in_chain_update (P := λ i, assigned_role i ∈ get_role_hierarchy (category i))
    (q : Issue → Prop) `{∀ a, Decision (q a)} (f : Issue → Issue) l :
  Forall P l →
  (∀ a, assigned_role (f a) = assigned_role a ∧ category (f a) = category a) →
  Forall P (update_first q f l).
Proof.
  intros Hl Hf. apply update_first_Forall; [done|].
  intros a Ha. apply head_filter_elem in Ha as [Hin _].
  rewrite Forall_forall in Hl. specialize (Hl a Hin). unfold P in *.
  destruct (Hf a) as [-> ->]. done.
Qed.

Section InvariantFacts.
Context `{Externals}.

(** What [escalate_issue] can do to the issue collection. *)
Lemma escalate_issue_issues x req u w :
  issues (snd (escalate_issue x req u w)) = issues w ∨
  ∃ found next_role,
    head (filter (λ i, issue_id i = x) (issues w)) = Some found ∧
    next_role ∈ get_role_hierarchy (category found) ∧
    issues (snd (escalate_issue x req u w)) =
      update_first (λ i, issue_id i = x) (set_role_status next_role "Escalated") (issues w).
Proof.
  remember (escalate_issue x req u w) as r eqn:Hr.
  unfold escalate_issue in Hr. case_decide; [left; by subst r|].
  unfold bind at 1, find_one_issue at 1 in Hr.
  destruct (head _) as [found|] eqn:Hfound; [|left; by subst r]. cbv zeta in Hr.
  destruct (_ <=? _)%Z; [left; by subst r|].
  destruct (PyList.getitem _ _) as [next_role|] eqn:Hnext; [|left; by subst r].
  right. exists found, next_role. split; [done|]. split; [by eapply getitem_elem|].
  by subst r.
Qed.

(** The sweep keeps the role invariant. [w0] is the world the documents
    were fetched from. *)
Lemma sweep_loop_roles found n w w0 :
  unique_ids w0 →
  (∀ j, j ∈ found → j ∈ issues w0) →
  (λ i, (issue_id i, category i)) <$> issues w = (λ i, (issue_id i, category i)) <$> issues w0 →
  roles_in_chain w →
  roles_in_chain (snd (sweep_loop found n w)).
Proof.
  intros Hnd. revert n w. induction found as [|j found IH]; intros n w Hfound Hkeys Hw; [done|].
  assert (∀ j', j' ∈ found → j' ∈ issues w0) as Hrest.
  { intros j' Hj'. apply Hfound. by right. }
  destruct (decide (below_ceiling j)) as [Hlt | Hge].
  - destruct (getitem_next _ _ Hlt) as (next_role & Hget & _).
    rewrite (sweep_loop_escalate j found n w next_role Hlt Hget).
    apply IH; [done| |].
    + cbn [issues]. rewrite <- Hkeys. by apply update_first_fmap.
    + unfold roles_in_chain. cbn [issues]. apply update_first_Forall; [exact Hw|].
      intros a Ha. apply head_filter_elem in Ha as [Hin Hid].
      cbn [set_role_status assigned_role category].
      assert (category a = category j) as ->; [|by eapply getitem_elem].
      apply list_elem_of_lookup_1 in Hin as [q Hq].
      assert (∃ a0, issues w0 !! q = Some a0 ∧ issue_id a0 = issue_id a ∧
                    category a0 = category a) as (a0 & Hq0 & Hid0 & Hcat0).
      { apply (f_equal (λ l, l !! q)) in Hkeys.
        rewrite !list_lookup_fmap, Hq in Hkeys. simpl in Hkeys.
        destruct (issues w0 !! q) as [a0|]; [|done].
        injection Hkeys as Hi Hc. by exists a0. }
      assert (j ∈ issues w0) as Hj by (apply Hfound; left).
      apply list_elem_of_lookup_1 in Hj as [qj Hqj].
      assert (q = qj) as ->.
      { eapply (NoDup_key_lookup_inj issue_id); [exact Hnd | exact Hq0 | exact Hqj |].
        congruence. }
      congruence.
  - rewrite (sweep_loop_skip j found n w Hge). by apply IH.
Qed.

End InvariantFacts.

(** X6.  The invariant "every issue is held by a role of its category's
    chain" is kept by every route that writes to the issue collection:
    [submit_feedback], [add_update], [escalate_issue] and [update_status]
    for every caller and input, and [check_escalation] in a store with
    unique issue ids. *)
Theorem routes_keep_roles_in_chain `{Externals} w :
  roles_in_chain w →
  (∀ fb u, roles_in_chain (snd (submit_feedback fb u w))) ∧
  (∀ (x : string) upd u, roles_in_chain (snd (add_update x upd u w))) ∧
  (∀ (x : string) req u, roles_in_chain (snd (escalate_issue x req u w))) ∧
  (∀ (x s : string) u, roles_in_chain (snd (update_status x s u w))) ∧
  (unique_ids w → roles_in_chain (snd (check_escalation w))).
Proof.
  intros Hw. repeat split.
  - intros fb u. destruct (decide (role u = "Student")) as [Hu | Hu].
    + rewrite submit_feedback_eq by done. cbv zeta.
      destruct (negb _); [done|].
      destruct (List.find _ _) as [e|].
      * unfold roles_in_chain. simpl. by apply roles_in_chain_update.
      * unfold roles_in_chain. cbn [snd issues]. apply Forall_app. split; [done|].
        apply Forall_singleton.
        pose proof (created_issue_role fb u w) as Hhead.
        destruct (get_role_hierarchy (category (created_issue fb u w))) as [|r rest];
          [done|].
        change (Some r = Some (assigned_role (created_issue fb u w))) in Hhead.
        replace (assigned_role (created_issue fb u w)) with r by congruence. left.
    + unfold submit_feedback. by rewrite decide_True.
  - intros x upd u. unfold add_update. case_decide; [done|].
    unfold bind at 1, find_one_issue at 1.
    destruct (head _); [|done].
    unfold roles_in_chain. simpl. by apply roles_in_chain_update.
  - intros x req u.
    destruct (escalate_issue_issues x req u w)
      as [Hsame | (found & next_role & Hfound & Hnext & Hrun)];
      unfold roles_in_chain; [by rewrite Hsame|].
    rewrite Hrun. apply update_first_Forall; [done|].
    intros a Ha. rewrite Hfound in Ha. injection Ha as <-. exact Hnext.
  - intros x s u. unfold update_status. case_decide; [done|].
    unfold roles_in_chain. simpl. by apply roles_in_chain_update.
  - intros Hnd. unfold check_escalation, bind at 1, now at 1. cbv zeta.
    unfold bind at 1, find_issues at 1.
    apply (sweep_loop_roles _ _ _ w); [done | | done | done].
    intros j Hj. simpl in Hj. apply elem_of_take in Hj as (k & Hk & _).
    apply list_elem_of_lookup_2, list_elem_of_filter in Hk. tauto.
Qed.

(** X6, witness: a store of three Hostel issues inside their chain. *)
Lemma routes_keep_roles_in_chain_witness :
  let w := Demo.store [Demo.top; Demo.late; Demo.closed] in
  roles_in_chain (snd (@submit_feedback Demo.externals (Demo.feedback "wifi down")
                         Demo.student w)) ∧
  roles_in_chain (snd (@escalate_issue Demo.externals "i3" (mk_EscalateRequest None)
                         Demo.admin w)) ∧
  roles_in_chain (snd (@check_escalation Demo.externals w)).
Proof.
  cbv zeta.
  destruct (@routes_keep_roles_in_chain Demo.externals
              (Demo.store [Demo.top; Demo.late; Demo.closed]))
    as (Hsubmit & _ & Hescalate & _ & Hsweep).
  - unfold roles_in_chain. simpl.
    repeat (apply Forall_cons; split;
            [apply (bool_decide_unpack _); vm_compute; exact I|]).
    apply Forall_nil_2.
  - split; [apply Hsubmit|]. split; [apply Hescalate|].
    apply Hsweep. unfold unique_ids. apply (bool_decide_unpack _). vm_compute. exact I.
Defined.

(** ** More on the SLA sweep *)

Section SweepMore.
Context `{Externals}.

Lemma check_escalation_unfold w :
  check_escalation w =
  sweep_loop
    (take 1000 (filter (overdue (DateTime.isoformat (utcnow (clock_reads w)))) (issues w)))
    0 (mk_World (issues w) (issue_updates w) (S (clock_reads w)) (uuid_draws w)).
Proof. reflexivity. Qed.

(** The loop returns its counter plus one per update it logs. *)
Lemma sweep_loop_log found n w :
  ∃ log,
    fst (sweep_loop found n w) = inr (n + Z.of_nat (length log))%Z ∧
    issue_updates (snd (sweep_loop found n w)) = (issue_updates w ++ log)%list ∧
    Forall (λ v, u_role v = "System" ∧ content_type v = "text" ∧
                 ∃ j, j ∈ found ∧ below_ceiling j ∧ u_issue_id v = issue_id j) log ∧
    length log = length (filter below_ceiling found) ∧
    length (issues (snd (sweep_loop found n w))) = length (issues w).
Proof.
  revert n w. induction found as [|j found IH]; intros n w.
  - exists []. simpl. rewrite app_nil_r. repeat split; [f_equal; lia | constructor].
  - destruct (decide (below_ceiling j)) as [Hlt | Hge].
    + destruct (getitem_next _ _ Hlt) as (next_role & Hget & _).
      rewrite (sweep_loop_escalate j found n w next_role Hlt Hget).
      match goal with |- context [sweep_loop found _ ?w1] => set (w' := w1) end.
      destruct (IH (n + 1)%Z w') as (log & Hn & Hlog & Hall & Hlen & Hiss).
      exists (sweep_entry j next_role w :: log).
      rewrite Hn, Hlog, Hiss. subst w'. cbn [issue_updates issues].
      rewrite filter_cons_True by done.
      split; [f_equal; simpl length; lia|].
      split; [by rewrite <- app_assoc|].
      split; [|split; [simpl; by rewrite Hlen | apply update_first_length]].
      apply Forall_cons. split.
      * split; [done|]. split; [done|]. exists j. split; [left | done].
      * eapply Forall_impl; [exact Hall|].
        intros v (Hr & Hc & j' & Hj' & Hb & Hid). split; [done|]. split; [done|].
        exists j'. split; [by right | done].
    + rewrite (sweep_loop_skip j found n w Hge).
      destruct (IH n w) as (log & Hn & Hlog & Hall & Hlen & Hiss).
      exists log. rewrite filter_cons_False by done.
      split; [done|]. split; [done|]. split; [|done].
      eapply Forall_impl; [exact Hall|].
      intros v (Hr & Hc & j' & Hj' & Hb & Hid). split; [done|]. split; [done|].
      exists j'. split; [by right | done].
Qed.

(** A loop over issues that are all at their ceiling does nothing. *)
Lemma sweep_loop_all_skip found n w :
  (∀ j, j ∈ found → ¬ below_ceiling j) → sweep_loop found n w = (inr n, w).
Proof.
  induction found as [|j found IH]; intros Hall; [done|].
  rewrite sweep_loop_skip by (apply Hall; left).
  apply IH. intros j' Hj'. apply Hall. by right.
Qed.

End SweepMore.

(** X7.  [check_escalation] never raises.  The count it returns is the
    number of update documents it appends; each of them is authored by
    System, is of kind text, and belongs to an issue that was Open or In
    Progress and overdue when the sweep started.  At most 1000 issues are
    escalated by one sweep, and no issue is added or removed. *)
Theorem sweep_count_matches_log `{Externals} w :
  ∃ log,
    fst (check_escalation w) = inr (Z.of_nat (length log)) ∧
    issue_updates (snd (check_escalation w)) = (issue_updates w ++ log)%list ∧
    Forall (λ v, u_role v = "System" ∧ content_type v = "text" ∧
                 ∃ j, j ∈ issues w ∧
                      overdue (DateTime.isoformat (utcnow (clock_reads w))) j ∧
                      u_issue_id v = issue_id j) log ∧
    (length log ≤ 1000)%nat ∧
    length (issues (snd (check_escalation w))) = length (issues w).
Proof.
  rewrite check_escalation_unfold.
  match goal with |- context [sweep_loop ?l _ ?w1] =>
    destruct (sweep_loop_log l 0%Z w1) as (log & Hn & Hlog & Hall & Hlen & Hiss)
  end.
  exists log. split; [by rewrite Hn|]. split; [done|]. split; [|split; [|done]].
  - eapply Forall_impl; [exact Hall|].
    intros v (Hr & Hc & j & Hj & _ & Hid). split; [done|]. split; [done|].
    exists j. apply elem_of_take in Hj as (k & Hk & _).
    apply list_elem_of_lookup_2, list_elem_of_filter in Hk as [Hdue Hin]. done.
  - rewrite Hlen. etrans; [apply length_filter|].
    rewrite length_take. lia.
Qed.

(** X8.  In a store with unique issue ids, an issue the sweep does not
    select (it is not overdue at the sweep's clock reading, or its status
    is neither Open nor In Progress, for instance Escalated or Resolved)
    stays where it is, unchanged, and gets no new update. *)
Theorem sweep_skips_unselected `{Externals} w (p : nat) i :
  unique_ids w →
  issues w !! p = Some i →
  ¬ overdue (DateTime.isoformat (utcnow (clock_reads w))) i →
  issues (snd (check_escalation w)) !! p = Some i ∧
  updates_of (issue_id i) (snd (check_escalation w)) = updates_of (issue_id i) w.
Proof.
  intros Hnd Hp Hnot. rewrite check_escalation_unfold.
  match goal with |- context [sweep_loop ?l _ ?w1] =>
    destruct (sweep_loop_untouched l 0%Z w1 p i) as [Hi Hupd]
  end.
  - done.
  - intros j Hj _ Hid. simpl in Hj.
    apply elem_of_take in Hj as (k & Hk & _).
    apply list_elem_of_lookup_2, list_elem_of_filter in Hk as [Hdue Hin].
    apply list_elem_of_lookup_1 in Hin as [q Hq].
    assert (q = p) as -> by (eapply (NoDup_key_lookup_inj issue_id); eauto).
    assert (j = i) as -> by congruence. done.
  - split; [exact Hi | exact Hupd].
Qed.

(** X8, witness: a resolved issue next to an overdue one. *)
Lemma sweep_skips_unselected_witness :
  let w := Demo.store [Demo.late; Demo.closed] in
  issues (snd (@check_escalation Demo.externals w)) !! 1 = Some Demo.closed ∧
  updates_of "i4" (snd (@check_escalation Demo.externals w)) = updates_of "i4" w.
Proof.
  apply (@sweep_skips_unselected Demo.externals (Demo.store [Demo.late; Demo.closed])
           1 Demo.closed).
  - unfold unique_ids. apply (bool_decide_unpack _). vm_compute. exact I.
  - reflexivity.
  - intros [[Hs | Hs] _]; discriminate Hs.
Defined.

(** X9.  The sweep is idempotent: in a store with unique issue ids in
    which at most 1000 issues are selected, a second sweep taken at the
    same [now] returns count 0 and changes neither collection, because
    every issue the first sweep fetched is by then Escalated or was at its
    ceiling. *)
Theorem sweep_idempotent `{Externals} w :
  unique_ids w →
  (length (filter (overdue (DateTime.isoformat (utcnow (clock_reads w)))) (issues w))
   ≤ 1000)%nat →
  DateTime.isoformat (utcnow (clock_reads (snd (check_escalation w)))) =
    DateTime.isoformat (utcnow (clock_reads w)) →
  fst (check_escalation (snd (check_escalation w))) = inr 0%Z ∧
  same_store (snd (check_escalation w)) (snd (check_escalation (snd (check_escalation w)))).
Proof.
  intros Hnd Hfew Hsame.
  set (now_iso := DateTime.isoformat (utcnow (clock_reads w))) in *.
  set (w1 := snd (check_escalation w)) in *.
  set (found := take 1000 (filter (overdue now_iso) (issues w))).
  set (w0 := mk_World (issues w) (issue_updates w) (S (clock_reads w)) (uuid_draws w)).
  assert (w1 = snd (sweep_loop found 0 w0)) as Hw1 by reflexivity.
  assert (found = filter (overdue now_iso) (issues w)) as Hfound.
  { unfold found. by apply take_ge. }
  assert (NoDup (issue_id <$> found)) as Hfnd.
  { eapply sublist_NoDup; [exact Hnd|]. apply fmap_sublist.
    rewrite Hfound. apply sublist_filter. }
  assert (∀ (p : nat) i i', issues w !! p = Some i → issues w1 !! p = Some i' →
            overdue now_iso i' → ¬ below_ceiling i') as Hafter.
  { intros p i i' Hp Hp' Hdue' Hbelow'.
    assert (∀ j, j ∈ found → issue_id j = issue_id i → j = i) as Hsame_id.
    { intros j Hj Hid. rewrite Hfound in Hj.
      apply list_elem_of_filter in Hj as [_ Hin].
      apply list_elem_of_lookup_1 in Hin as [q Hq].
      assert (q = p) as ->.
      { by apply (NoDup_key_lookup_inj issue_id (issues w) q p j i). }
      congruence. }
    destruct (decide (overdue now_iso i ∧ below_ceiling i)) as [[Hdue Hbelow] | Hno].
    - destruct (getitem_next _ _ Hbelow) as (next_role & Hget & _).
      assert (issues w1 !! p = Some (set_role_status next_role "Escalated" i)) as Hmoved.
      { rewrite Hw1. apply sweep_loop_moves; try done.
        rewrite Hfound. apply list_elem_of_filter. split; [done|].
        by eapply list_elem_of_lookup_2. }
      rewrite Hmoved in Hp'. injection Hp' as <-.
      destruct Hdue' as [[Hs | Hs] _]; discriminate Hs.
    - assert (issues w1 !! p = Some i) as Hsame_i.
      { rewrite Hw1. eapply proj1, sweep_loop_untouched; [done|].
        intros j Hj Hb Hid. apply Hno.
        assert (j = i) as <- by (by apply Hsame_id).
        split; [|done]. rewrite Hfound in Hj.
        apply list_elem_of_filter in Hj. tauto. }
      rewrite Hsame_i in Hp'. injection Hp' as <-. apply Hno. split; [done|done]. }
  assert (length (issues w1) = length (issues w)) as Hlen.
  { rewrite Hw1. destruct (sweep_loop_log found 0%Z w0) as (log & _ & _ & _ & _ & Hl).
    exact Hl. }
  rewrite check_escalation_unfold. rewrite Hsame.
  rewrite sweep_loop_all_skip; [by repeat split|].
  intros j Hj. apply elem_of_take in Hj as (k & Hk & _).
  apply list_elem_of_lookup_2, list_elem_of_filter in Hk as [Hdue Hin].
  apply list_elem_of_lookup_1 in Hin as [p Hp'].
  destruct (issues w !! p) as [i|] eqn:Hp.
  - by eapply Hafter.
  - apply lookup_ge_None in Hp. apply lookup_lt_Some in Hp'. lia.
Qed.

(** X9, witness: an issue at its ceiling and one below it, both overdue,
    swept twice with a clock that stands still. *)
Lemma sweep_idempotent_witness :
  let w := Demo.store [Demo.top; Demo.late; Demo.closed] in
  let w1 := snd (@check_escalation Demo.frozen w) in
  fst (@check_escalation Demo.frozen w) = inr 1%Z ∧
  fst (@check_escalation Demo.frozen w1) = inr 0%Z ∧
  same_store w1 (snd (@check_escalation Demo.frozen w1)).
Proof.
  cbv zeta. split; [reflexivity|].
  apply (@sweep_idempotent Demo.frozen (Demo.store [Demo.top; Demo.late; Demo.closed])).
  - unfold unique_ids. apply (bool_decide_unpack _). vm_compute. exact I.
  - vm_compute. lia.
  - reflexivity.
Defined.

(** ** More on submission *)

Lemma contains_empty hay : PyStr.contains "" hay = true.
Proof. by destruct hay. Qed.


(** X11.  A new issue can be found again by its author: right after a
    submission that created an issue, [get_my_issues] called by the same
    student lists that issue (without its token), provided the clock is
    still in the UTC day of the submission and the student's token selects
    fewer than 1000 older issues. *)
Theorem submitted_issue_is_listed `{Externals} fb u w r w' new :
  submit_feedback fb u w = (inr r, w') →
  issues w' = (issues w ++ [new])%list →
  DateTime.same_day (utcnow (clock_reads w)) (utcnow (clock_reads w')) →
  (length (filter (λ i, anon_token i = anon_token new) (issues w)) < 1000)%nat →
  project_out ["_id"; "anon_token"] (issue_doc new) ∈ listed (fst (get_my_issues u w')).
Proof.
  intros Hsubmit Hnew Hday Hfew.
  assert (role u = "Student") as Hu.
  { destruct (decide (role u = "Student")) as [|Hn]; [done|].
    unfold submit_feedback in Hsubmit. rewrite decide_True in Hsubmit by done.
    discriminate Hsubmit. }
  assert (anon_token new = token_at (utcnow (clock_reads w)) (uid u)) as Htok.
  { rewrite submit_feedback_eq in Hsubmit by done. cbv zeta in Hsubmit.
    destruct (negb _); [discriminate Hsubmit|].
    destruct (List.find _ _) as [e|].
    - injection Hsubmit as _ <-. simpl in Hnew. apply (f_equal length) in Hnew.
      rewrite update_first_length, length_app in Hnew. simpl in Hnew. lia.
    - injection Hsubmit as _ <-. simpl in Hnew.
      apply app_inv_head in Hnew. by injection Hnew as <-. }
  unfold get_my_issues. rewrite decide_True by done.
  unfold bind at 1. rewrite generate_anon_token_eq.
  unfold bind, find_issues, ret. cbn [fst snd listed issues].
  unfold token_at. rewrite <- (strftime_same_day _ _ Hday).
  fold (token_at (utcnow (clock_reads w)) (uid u)). rewrite <- Htok.
  unfold without_token. apply list_elem_of_fmap. exists new. split; [done|].
  rewrite Hnew, filter_app, filter_cons_True, filter_nil by done.
  apply elem_of_take. exists (length (filter (λ i, anon_token i = anon_token new) (issues w))).
  split; [|done]. by apply list_lookup_middle.
Qed.

(** X11, witness: the first report in an empty store. *)
Lemma submitted_issue_is_listed_witness :
  let fb := Demo.feedback "wifi down" in
  let new := @created_issue Demo.externals fb Demo.student (Demo.store []) in
  project_out ["_id"; "anon_token"] (issue_doc new) ∈
    listed (fst (@get_my_issues Demo.externals Demo.student (mk_World [new] [] 3 2))).
Proof.
  cbv zeta.
  apply (@submitted_issue_is_listed Demo.externals (Demo.feedback "wifi down") Demo.student
           (Demo.store [])
           (mk_SubmitResponse "Feedback submitted successfully" "uuid-0001")).
  - reflexivity.
  - reflexivity.
  - by repeat split.
  - simpl. lia.
Defined.

(** X12.  An empty moderated summary is contained in every stored summary:
    when a student's submission passes moderation with an empty summary
    (as the fallback produces for an empty text) and the category has a
    non-Resolved issue, the submission is counted as a duplicate of the
    first such issue and no issue is created. *)
Theorem empty_summary_is_duplicate `{Externals} fb u w e :
  role u = "Student" →
  is_appropriate (moderation_of w (fs_text fb)) = true →
  m_summary (moderation_of w (fs_text fb)) = "" →
  candidates (fs_category fb) w !! 0 = Some e →
  fst (submit_feedback fb u w) =
    inr (mk_SubmitResponse "Similar issue already reported" (issue_id e)) ∧
  length (issues (snd (submit_feedback fb u w))) = length (issues w).
Proof.
  intros Hu Hok Hempty He.
  rewrite submit_feedback_eq by done. cbv zeta. rewrite Hok. simpl negb. cbv iota.
  rewrite (find_first _ _ 0 e He).
  - split; [done|]. simpl. apply update_first_length.
  - unfold similar. rewrite Hempty, (str_lower_ascii "") by reflexivity.
    apply contains_empty.
  - intros k' b Hlt. lia.
Qed.

(** X12, witness: an empty text sent while the gateway is down.  The demo
    gateway raises on [crash] only, so the environment below raises on
    every text. *)
Lemma empty_summary_is_duplicate_witness :
  let down : Externals :=
    {| utcnow := Demo.clock; uuid4 := λ _, "uuid"; sha256_hexdigest := λ s, s;
       gemini := λ _ _, None;
       str_lower := Demo.lower; str_lower_ascii := Demo.lower_ascii |} in
  fst (@submit_feedback down (Demo.feedback "") Demo.student Demo.crowded) =
    inr (mk_SubmitResponse "Similar issue already reported" "q000") ∧
  length (issues (snd (@submit_feedback down (Demo.feedback "") Demo.student Demo.crowded))) =
    length (issues Demo.crowded).
Proof.
  cbv zeta.
  apply (@empty_summary_is_duplicate
           {| utcnow := Demo.clock; uuid4 := λ _, "uuid"; sha256_hexdigest := λ s, s;
              gemini := λ _ _, None;
              str_lower := Demo.lower; str_lower_ascii := Demo.lower_ascii |}
           (Demo.feedback "") Demo.student Demo.crowded (Demo.queue 0)); reflexivity.
Defined.

(** ** Issue detail *)

Lemma lt_asym a b : PyStr.lt a b = true → PyStr.lt b a = false.
Proof.
  unfold PyStr.lt, String.ltb. rewrite (String.compare_antisym b a).
  by destruct (a ?= b)%string.
Qed.

Lemma insert_desc_perm u l : insert_desc u l ≡ₚ u :: l.
Proof.
  induction l as [|v l IH]; simpl; [done|].
  destruct (PyStr.lt _ _); [|done]. rewrite IH. apply Permutation_swap.
Qed.

Lemma sort_desc_perm l : sort_desc l ≡ₚ l.
Proof.
  induction l as [|v l IH]; [done|].
  unfold sort_desc in *. simpl. by rewrite insert_desc_perm, IH.
Qed.

Lemma insert_desc_sorted u l : newest_first l → newest_first (insert_desc u l).
Proof.
  induction l as [|v l IH]; intros Hl; [by split|].
  cbn [insert_desc]. destruct (PyStr.lt (timestamp u) (timestamp v)) eqn:Huv.
  - destruct Hl as [Hhead Hl]. split; [|by apply IH].
    destruct l as [|x l]; cbn [insert_desc].
    + by apply lt_asym.
    + destruct (PyStr.lt (timestamp u) (timestamp x)); [done | by apply lt_asym].
  - by split.
Qed.

Lemma sort_desc_sorted l : newest_first (sort_desc l).
Proof.
  induction l as [|v l IH]; [done|].
  unfold sort_desc in *. simpl. by apply insert_desc_sorted.
Qed.

Lemma newest_first_take n l : newest_first l → newest_first (take n l).
Proof.
  revert n. induction l as [|v l IH]; intros n Hl; [by destruct n|].
  destruct n as [|n]; [done|]. destruct Hl as [Hhead Hl].
  cbn [take]. split; [|by apply IH].
  destruct l as [|x l]; [by destruct n|]. by destruct n.
Qed.

Lemma get_issue_found u w (p : nat) i :
  unique_ids w → issues w !! p = Some i →
  get_issue (issue_id i) u w =
  (inr (mk_IssueDetail (project_out ["_id"; "anon_token"] (issue_doc i))
          (project_out ["_id"] ∘ update_doc <$>
             take 100 (sort_desc (updates_of (issue_id i) w)))), w).
Proof.
  intros Hnd Hp. unfold get_issue, bind at 1, find_one_issue at 1.
  by rewrite (find_one_unique issue_id (issues w) p i Hnd Hp).
Qed.

Lemma projected_status i :
  project_out ["_id"; "anon_token"] (issue_doc i) !! "status" = Some (VStr (status i)).
Proof.
  unfold project_out. simpl. rewrite !lookup_delete_ne by done. reflexivity.
Qed.

Lemma projected_role i :
  project_out ["_id"; "anon_token"] (issue_doc i) !! "assigned_role" =
  Some (VStr (assigned_role i)).
Proof.
  unfold project_out. simpl. rewrite !lookup_delete_ne by done. reflexivity.
Qed.

(** X13.  [get_issue] asks nothing of the caller's role.  For an id no
    issue carries it raises NotFound.  For an existing issue (unique ids)
    it returns the issue without its token together with update documents
    that all belong to that issue, at most 100 of them, newest first; when
    the issue has at most 100 updates they are all returned. *)
Theorem get_issue_spec (x : string) u w :
  ((∀ i, i ∈ issues w → issue_id i ≠ x) → get_issue x u w = (inl NotFound, w)) ∧
  (∀ (p : nat) i, unique_ids w → issues w !! p = Some i → issue_id i = x →
     ∃ shown,
       get_issue x u w =
         (inr (mk_IssueDetail (project_out ["_id"; "anon_token"] (issue_doc i))
                 (project_out ["_id"] ∘ update_doc <$> shown)), w) ∧
       (length shown ≤ 100)%nat ∧
       newest_first shown ∧
       (∀ v, v ∈ shown → v ∈ issue_updates w ∧ u_issue_id v = x) ∧
       ((length (updates_of x w) ≤ 100)%nat → shown ≡ₚ updates_of x w)).
Proof.
  split.
  - intros Habsent. unfold get_issue, bind at 1, find_one_issue at 1.
    by rewrite (find_one_absent issue_id (issues w) x Habsent).
  - intros p i Hnd Hp <-.
    exists (take 100 (sort_desc (updates_of (issue_id i) w))).
    split; [by apply (get_issue_found u w p)|].
    split; [rewrite length_take; lia|].
    split; [apply newest_first_take, sort_desc_sorted|].
    split.
    + intros v Hv. apply elem_of_take in Hv as (k & Hk & _).
      apply list_elem_of_lookup_2 in Hk. rewrite sort_desc_perm in Hk.
      unfold updates_of in Hk. apply list_elem_of_filter in Hk. tauto.
    + intros Hfew. rewrite take_ge; [apply sort_desc_perm|].
      by rewrite sort_desc_perm.
Qed.

(** X13, witness: a student reads an issue of somebody else after a
    sweep has logged one update on it; an unknown id is refused. *)
Lemma get_issue_spec_witness :
  let w := snd (@check_escalation Demo.externals (Demo.store [Demo.top; Demo.late])) in
  get_issue "i9" Demo.student w = (inl NotFound, w) ∧
  ∃ shown,
    get_issue "i3" Demo.student w =
      (inr (mk_IssueDetail
              (project_out ["_id"; "anon_token"]
                 (issue_doc (set_role_status "Admin" "Escalated" Demo.late)))
              (project_out ["_id"] ∘ update_doc <$> shown)), w) ∧
    length shown = 1%nat.
Proof.
  cbv zeta.
  set (w := snd (@check_escalation Demo.externals (Demo.store [Demo.top; Demo.late]))).
  destruct (get_issue_spec "i9" Demo.student w) as [Habsent _].
  destruct (get_issue_spec "i3" Demo.student w) as [_ Hfound].
  split.
  - apply Habsent. intros i Hi. subst w.
    apply list_elem_of_lookup_1 in Hi as [k Hk].
    destruct k as [|[|k]]; vm_compute in Hk; [injection Hk as <-..|]; discriminate.
  - destruct (Hfound 1 (set_role_status "Admin" "Escalated" Demo.late))
      as (shown & Hrun & _ & _ & _ & Hall).
    + unfold unique_ids. apply (bool_decide_unpack _). vm_compute. exact I.
    + reflexivity.
    + reflexivity.
    + exists shown. split; [exact Hrun|].
      rewrite Hall; [reflexivity | vm_compute; lia].
Defined.

Section DetailMore.
Context `{Externals}.

(** The run of [add_update] on an existing issue. *)
Lemma add_update_found (p : nat) i upd u w :
  role u ≠ "Student" → unique_ids w → issues w !! p = Some i →
  add_update (issue_id i) upd u w =
  (inr "Update added successfully",
   mk_World (<[p := set_status "In Progress" i]> (issues w))
     (issue_updates w ++
        [mk_IssueUpdate (uuid4 (uuid_draws w)) (issue_id i) (role u) (uc_content_type upd)
           (uc_content_text upd) None (DateTime.isoformat (utcnow (clock_reads w)))])
     (S (clock_reads w)) (S (uuid_draws w))).
Proof.
  intros Hu Hnd Hp. unfold add_update. rewrite decide_False by done.
  unfold bind at 1, find_one_issue at 1.
  rewrite (find_one_unique issue_id (issues w) p i Hnd Hp).
  unfold bind, new_IssueUpdate, bind, new_uuid, now, insert_issue_update,
    update_one_issue, set_issue_updates, set_issues, ret. cbn.
  by rewrite (update_first_unique issue_id _ (issues w) p i Hnd Hp).
Qed.

End DetailMore.

Lemma insert_keeps_ids (l : list Issue) (p : nat) i i' :
  l !! p = Some i → issue_id i' = issue_id i →
  issue_id <$> <[p := i']> l = issue_id <$> l.
Proof.
  intros Hp Hid. rewrite list_fmap_insert, Hid. apply list_insert_id.
  by rewrite list_lookup_fmap, Hp.
Qed.

(** X14.  What a staff member adds can be read back: after [add_update]
    on an existing issue (unique ids, caller not a Student), [get_issue]
    on the same id shows the issue with status In Progress, and the
    updates it returns include the one just added whenever the issue had
    fewer than 100 updates before. *)
Theorem added_update_is_shown `{Externals} (p : nat) i upd u reader w :
  role u ≠ "Student" →
  unique_ids w →
  issues w !! p = Some i →
  (length (updates_of (issue_id i) w) < 100)%nat →
  ∃ detail,
    let w' := snd (add_update (issue_id i) upd u w) in
    get_issue (issue_id i) reader w' = (inr detail, w') ∧
    d_issue detail !! "status" = Some (VStr "In Progress") ∧
    d_issue detail !! "assigned_role" = Some (VStr (assigned_role i)) ∧
    project_out ["_id"]
      (update_doc (mk_IssueUpdate (uuid4 (uuid_draws w)) (issue_id i) (role u)
                     (uc_content_type upd) (uc_content_text upd) None
                     (DateTime.isoformat (utcnow (clock_reads w)))))
      ∈ d_updates detail.
Proof.
  intros Hu Hnd Hp Hfew. rewrite (add_update_found p i upd u w Hu Hnd Hp).
  cbv zeta. cbn [snd].
  match goal with |- context [get_issue _ _ ?w1] => set (w' := w1) end.
  assert (unique_ids w') as Hnd'.
  { unfold unique_ids, w'. cbn [issues].
    by rewrite (insert_keeps_ids (issues w) p i (set_status "In Progress" i) Hp eq_refl). }
  assert (issues w' !! p = Some (set_status "In Progress" i)) as Hp'.
  { unfold w'. cbn [issues]. apply list_lookup_insert_eq. by eapply lookup_lt_Some. }
  pose proof (get_issue_found reader w' p (set_status "In Progress" i) Hnd' Hp') as Hget.
  cbn [set_status issue_id] in Hget.
  eexists. split; [exact Hget|].
  cbn [d_issue d_updates].
  split; [exact (projected_status (set_status "In Progress" i))|].
  split; [exact (projected_role (set_status "In Progress" i))|].
  apply list_elem_of_fmap. eexists. split; [reflexivity|].
  assert (updates_of (issue_id i) w' =
          (updates_of (issue_id i) w ++
             [mk_IssueUpdate (uuid4 (uuid_draws w)) (issue_id i) (role u) (uc_content_type upd)
                (uc_content_text upd) None (DateTime.isoformat (utcnow (clock_reads w)))])%list)
    as Hups.
  { unfold updates_of, w'. cbn [issue_updates].
    by rewrite filter_app, filter_cons_True, filter_nil. }
  rewrite take_ge.
  - rewrite sort_desc_perm, Hups. apply elem_of_app. right. left.
  - rewrite sort_desc_perm, Hups, length_app. simpl. lia.
Qed.

(** X14, witness: an admin comments on the resolved Food issue and a
    student opens it. *)
Lemma added_update_is_shown_witness :
  let upd := mk_UpdateCreate "text" (Some "reopened") in
  let w := Demo.store [Demo.top; Demo.closed] in
  ∃ detail,
    let w' := snd (@add_update Demo.externals "i4" upd Demo.admin w) in
    get_issue "i4" Demo.student w' = (inr detail, w') ∧
    d_issue detail !! "status" = Some (VStr "In Progress") ∧
    d_issue detail !! "assigned_role" = Some (VStr "Admin") ∧
    project_out ["_id"]
      (update_doc (mk_IssueUpdate "uuid-0000" "i4" "Admin" "text" (Some "reopened") None
                     "2026-11-03T10:00:00+00:00"))
      ∈ d_updates detail.
Proof.
  cbv zeta.
  apply (@added_update_is_shown Demo.externals 1 Demo.closed
           (mk_UpdateCreate "text" (Some "reopened")) Demo.admin Demo.student
           (Demo.store [Demo.top; Demo.closed])).
  - discriminate.
  - unfold unique_ids. apply (bool_decide_unpack _). vm_compute. exact I.
  - reflexivity.
  - vm_compute. lia.
Defined.

(** ** Read-only routes *)

(** X15.  The reading routes never write: [get_my_issues],
    [get_all_issues], [get_issue] and [get_dashboard_stats] leave both
    collections as they are and draw no uuid, for every caller and store;
    the last three leave the whole world unchanged. *)
Theorem reading_routes_do_not_write `{Externals} u (x : string) w :
  same_store w (snd (get_my_issues u w)) ∧
  uuid_draws (snd (get_my_issues u w)) = uuid_draws w ∧
  snd (get_all_issues u w) = w ∧
  snd (get_issue x u w) = w ∧
  snd (get_dashboard_stats u w) = w.
Proof.
  split; [|split; [|split; [|split]]].
  - unfold get_my_issues. repeat case_decide; by split.
  - unfold get_my_issues. by repeat case_decide.
  - unfold get_all_issues. by case_decide.
  - unfold get_issue, bind at 1, find_one_issue at 1. by destruct (head _).
  - reflexivity.
Qed.

(** X16.  What [get_my_issues] selects for staff.  For the Principal the
    assigned role plays no part: every listed document has status
    Escalated, an Escalated issue is listed whoever holds it (when there
    are at most 1000 of them), and an issue held by the Principal whose
    status is anything else is not listed.  For any other role but
    Student, every listed document is held by the caller's role. *)
Theorem my_issues_selection `{Externals} u w :
  (role u = "Principal" →
   Forall (λ d, d !! "status" = Some (VStr "Escalated")) (listed (fst (get_my_issues u w))) ∧
   (∀ i, i ∈ issues w → status i = "Escalated" →
         (length (filter (λ j, status j = "Escalated") (issues w)) ≤ 1000)%nat →
         project_out ["_id"; "anon_token"] (issue_doc i) ∈ listed (fst (get_my_issues u w))) ∧
   (∀ i, i ∈ issues w → status i ≠ "Escalated" →
         project_out ["_id"; "anon_token"] (issue_doc i) ∉ listed (fst (get_my_issues u w)))) ∧
  (role u ≠ "Principal" → role u ≠ "Student" →
   Forall (λ d, d !! "assigned_role" = Some (VStr (role u))) (listed (fst (get_my_issues u w)))).
Proof.
  split.
  - intros Hu. unfold get_my_issues.
    rewrite decide_False by (rewrite Hu; discriminate).
    rewrite decide_True by done.
    unfold bind, find_issues, ret. cbn [fst listed].
    assert (Forall (λ d, d !! "status" = Some (VStr "Escalated"))
              (without_token (take 1000 (filter (λ i, status i = "Escalated") (issues w)))))
      as Hall.
    { unfold without_token. apply Forall_fmap, Forall_forall. intros i Hi. simpl.
      apply elem_of_take in Hi as (k & Hk & _).
      apply list_elem_of_lookup_2, list_elem_of_filter in Hk as [Hs _].
      rewrite <- Hs. apply projected_status. }
    split; [exact Hall|]. split.
    + intros i Hi Hs Hfew. unfold without_token. apply list_elem_of_fmap.
      exists i. split; [done|]. rewrite take_ge by done.
      apply list_elem_of_filter. by split.
    + intros i Hi Hs Hin. rewrite Forall_forall in Hall.
      specialize (Hall _ Hin). rewrite projected_status in Hall. congruence.
  - intros Hp Hs. unfold get_my_issues. rewrite !decide_False by done.
    unfold bind, find_issues, ret. cbn [fst listed].
    unfold without_token. apply Forall_fmap, Forall_forall. intros i Hi. simpl.
    apply elem_of_take in Hi as (k & Hk & _).
    apply list_elem_of_lookup_2, list_elem_of_filter in Hk as [Hr _].
    rewrite <- Hr. apply projected_role.
Qed.

(** X16, witness: the Principal does not see the Open issue held by the
    Principal; an admin sees only issues held by Admin. *)
Lemma my_issues_selection_witness :
  let principal := mk_User "u5" "principal@campus.example" "Pia" "Principal" None in
  let w := Demo.store [Demo.top; Demo.closed] in
  (project_out ["_id"; "anon_token"] (issue_doc Demo.top) ∉
     listed (fst (@get_my_issues Demo.externals principal w))) ∧
  Forall (λ d, d !! "assigned_role" = Some (VStr "Admin"))
    (listed (fst (@get_my_issues Demo.externals Demo.admin w))).
Proof.
  cbv zeta.
  destruct (@my_issues_selection Demo.externals
              (mk_User "u5" "principal@campus.example" "Pia" "Principal" None)
              (Demo.store [Demo.top; Demo.closed])) as [Hprincipal _].
  destruct (@my_issues_selection Demo.externals Demo.admin
              (Demo.store [Demo.top; Demo.closed])) as [_ Hstaff].
  split.
  - destruct (Hprincipal eq_refl) as (_ & _ & Hhidden).
    apply Hhidden; [left | discriminate].
  - apply Hstaff; discriminate.
Defined.

(** ** The moderation fallback *)

(** X17.  When the gateway call raises, the summary that
    [moderate_with_gemini] hands back is the text cut between two code
    points, after min(100, len(text)) of them (characters are counted as
    Python counts them, not bytes); a text of at most 100 characters is
    its own summary, the rewritten text is the text unchanged, and the
    reply is marked appropriate with urgency 50. *)
Theorem fallback_summary_is_prefix `{Externals} (text : string) w :
  gemini (uuid4 (uuid_draws w)) text = None →
  ∃ m, fst (moderate_with_gemini text w) = inr m ∧
       cut_of (m_summary m) text ∧
       PyStr.len (m_summary m) = 100 `min` PyStr.len text ∧
       ((PyStr.len text ≤ 100)%nat → m_summary m = text) ∧
       rewritten_text m = text ∧
       is_appropriate m = true ∧
       m_urgency_score m = 50%Z.
Proof.
  intros Hfail. exists (fallback_moderation text).
  rewrite moderate_with_gemini_eq. unfold moderation_of. rewrite Hfail.
  split; [done|]. split; [apply slice_to_cut|].
  split; [apply slice_to_len|]. split; [apply slice_to_all | done].
Qed.

(** X17, witness: 120 accented letters (240 bytes) sent while the
    gateway is down; the summary holds 100 of them. *)
Lemma fallback_summary_is_prefix_witness :
  let text := Demo.times 120 Demo.e_acute in
  ∃ m, fst (@moderate_with_gemini Demo.offline text Demo.crowded) = inr m ∧
       cut_of (m_summary m) text ∧
       PyStr.len (m_summary m) = 100%nat ∧
       ((120 ≤ 100)%nat → m_summary m = text) ∧
       rewritten_text m = text ∧
       is_appropriate m = true ∧
       m_urgency_score m = 50%Z.
Proof.
  cbv zeta.
  apply (@fallback_summary_is_prefix Demo.offline (Demo.times 120 Demo.e_acute) Demo.crowded).
  reflexivity.
Defined.

(** The cut counts code points: 100 accented letters are 200 bytes, and a
    text of 60 of them is kept whole. *)
Example slice_counts_code_points :
  PyStr.slice_to 100 (Demo.times 120 Demo.e_acute) = Demo.times 100 Demo.e_acute ∧
  String.length (PyStr.slice_to 100 (Demo.times 120 Demo.e_acute)) = 200%nat ∧
  PyStr.slice_to 100 (Demo.times 60 Demo.e_acute) = Demo.times 60 Demo.e_acute ∧
  PyStr.slice_to 3 "crash" = "cra".
Proof. repeat split; vm_compute; reflexivity. Qed.

(** ** Dashboard *)

Lemma status_counts (l : list Issue) :
  (length (filter (λ i, status i = "Open") l) +
   length (filter (λ i, status i = "In Progress") l) +
   length (filter (λ i, status i = "Resolved") l) +
   length (filter (λ i, status i = "Escalated") l) +
   length (filter (λ i, ¬ known_status (status i)) l) = length l)%nat.
Proof.
  induction l as [|i l IH]; [done|].
  rewrite !filter_cons. unfold known_status at 1.
  repeat case_decide; simpl; try lia; try congruence; exfalso; tauto.
Qed.

Lemma indicator_sum (cs : list string) (c : string) :
  NoDup cs → c ∈ cs →
  sum_list ((λ c', if decide (c = c') then 1 else 0)%nat <$> cs) = 1%nat.
Proof.
  induction cs as [|c' cs IH]; intros Hnd Hc; [by apply elem_of_nil in Hc|].
  apply NoDup_cons in Hnd as [Hc' Hnd]. simpl. case_decide as Heq.
  - subst c'. f_equal. clear IH Hc. induction cs as [|d cs IH]; [done|].
    apply not_elem_of_cons in Hc' as [Hd Hc']. apply NoDup_cons in Hnd as [_ Hnd].
    simpl. rewrite decide_False by done. by apply IH.
  - apply elem_of_cons in Hc as [-> | Hc]; [done|]. by apply IH.
Qed.

Lemma group_counts_sum (l : list Issue) (cs : list string) :
  NoDup cs → (∀ i, i ∈ l → category i ∈ cs) →
  sum_list ((λ c, length (filter (λ i, category i = c) l)) <$> cs) = length l.
Proof.
  intros Hnd. induction l as [|i l IH]; intros Hl.
  - change (sum_list ((λ _ : string, 0%nat) <$> cs) = 0%nat).
    rewrite sum_list_fmap_const. lia.
  - assert (∀ cs', sum_list ((λ c, length (filter (λ j, category j = c) (i :: l))) <$> cs') =
                   (sum_list ((λ c, length (filter (λ j, category j = c) l)) <$> cs') +
                    sum_list ((λ c', if decide (category i = c') then 1 else 0) <$> cs'))%nat)
      as Hsplit.
    { induction cs' as [|c cs' IHc]; [done|].
      rewrite !fmap_cons. cbn [sum_list_with]. rewrite IHc, filter_cons.
      repeat case_decide; simpl; try congruence; lia. }
    rewrite Hsplit, IH, indicator_sum; [simpl; lia | done | apply Hl; left |].
    intros j Hj. apply Hl. by right.
Qed.

Lemma group_by_category_keys l :
  fst <$> group_by_category l = remove_dups (category <$> l).
Proof.
  unfold group_by_category. rewrite <- list_fmap_compose.
  rewrite <- (list_fmap_id (remove_dups (category <$> l))) at 2.
  by apply list_fmap_ext.
Qed.

Lemma group_by_category_counts l :
  snd <$> group_by_category l =
  (λ c, length (filter (λ i, category i = c) l)) <$> remove_dups (category <$> l).
Proof.
  unfold group_by_category. rewrite <- list_fmap_compose. by apply list_fmap_ext.
Qed.

Lemma filter_everything {A} (l : list A) : length (filter (λ _ : A, True) l) = length l.
Proof.
  induction l as [|a l IH]; [done|]. rewrite filter_cons_True by done.
  simpl. by rewrite IH.
Qed.

(** X18.  [get_dashboard_stats] is open to every caller and leaves the
    world unchanged.  The total is the number of issues; the four status
    counters add up to at most the total, and to exactly the total when
    every status is one of Open, In Progress, Resolved, Escalated (which
    [update_status] does not enforce).  Each category pair carries a
    positive count equal to the number of issues of that category, no
    category is listed twice, and when there are at most 100 distinct
    categories the category counts add up to the total. *)
Theorem dashboard_counts u w :
  ∃ d, get_dashboard_stats u w = (inr d, w) ∧
       total_issues d = length (issues w) ∧
       (open_issues d + in_progress d + resolved d + escalated d ≤ total_issues d)%nat ∧
       (Forall (λ i, known_status (status i)) (issues w) →
        (open_issues d + in_progress d + resolved d + escalated d = total_issues d)%nat) ∧
       (∀ c (n : nat), (c, n) ∈ categories d →
          (0 < n)%nat ∧ n = length (filter (λ i, category i = c) (issues w))) ∧
       NoDup (fst <$> categories d) ∧
       ((length (remove_dups (category <$> issues w)) ≤ 100)%nat →
        sum_list (snd <$> categories d) = total_issues d).
Proof.
  eexists. split; [reflexivity|]. cbn [total_issues open_issues in_progress resolved
    escalated categories].
  pose proof (status_counts (issues w)) as Hsum.
  pose proof (filter_everything (issues w)) as Htotal.
  split; [done|]. rewrite Htotal. split; [lia|]. split; [|split; [|split]].
  - intros Hknown.
    assert (filter (λ i, ¬ known_status (status i)) (issues w) = []) as Hnone.
    { apply filter_none. intros i Hi Hn. rewrite Forall_forall in Hknown.
      by apply Hn, Hknown. }
    rewrite Hnone in Hsum. simpl in Hsum. lia.
  - intros c n Hcn. apply elem_of_take in Hcn as (k & Hk & _).
    apply list_elem_of_lookup_2 in Hk. unfold group_by_category in Hk.
    apply list_elem_of_fmap in Hk as (c' & Heq & Hc'). injection Heq as -> ->.
    split; [|done]. apply elem_of_remove_dups, list_elem_of_fmap in Hc' as (i & Hc & Hi).
    destruct (filter (λ i0, category i0 = c') (issues w)) as [|x l] eqn:Hf; [|simpl; lia].
    exfalso. eapply (filter_nil_not_elem_of _ _ i); [exact Hf | by symmetry | done].
  - eapply sublist_NoDup; [|apply fmap_sublist, sublist_take].
    rewrite group_by_category_keys. apply NoDup_remove_dups.
  - intros Hfew. rewrite take_ge by (unfold group_by_category; by rewrite length_fmap).
    rewrite group_by_category_counts.
    apply group_counts_sum; [apply NoDup_remove_dups|].
    intros i Hi. apply elem_of_remove_dups, list_elem_of_fmap. by exists i.
Qed.

(** ** Accounts *)

Lemma head_filter_first {A} (q : A → Prop) `{∀ a, Decision (q a)} (l : list A) a :
  (∀ b, b ∈ l → ¬ q b) → q a → head (filter q (l ++ [a])%list) = Some a.
Proof.
  intros Hl Ha. rewrite filter_app, (filter_none q l Hl). simpl.
  by rewrite filter_cons_True.
Qed.

Lemma head_filter_None {A} (q : A → Prop) `{∀ a, Decision (q a)} (l : list A) :
  (∀ b, b ∈ l → ¬ q b) → head (filter q l) = None.
Proof. intros Hl. by rewrite (filter_none q l Hl). Qed.

Lemma head_filter_Some {A} (q : A → Prop) `{∀ a, Decision (q a)} (l : list A) :
  (∃ b, b ∈ l ∧ q b) → ∃ a, head (filter q l) = Some a ∧ a ∈ l ∧ q a.
Proof.
  intros (b & Hb & Hq).
  assert (b ∈ filter q l) as Hin by (apply list_elem_of_filter; by split).
  destruct (filter q l) as [|a l'] eqn:Hf; [by apply elem_of_nil in Hin|].
  exists a. split; [done|].
  assert (a ∈ filter q l) as Ha by (rewrite Hf; left).
  apply list_elem_of_filter in Ha. tauto.
Qed.

Lemma head_filter_cases {A} (q : A → Prop) `{∀ a, Decision (q a)} (l : list A) :
  (∃ a, head (filter q l) = Some a ∧ a ∈ l ∧ q a) ∨ (∀ b, b ∈ l → ¬ q b).
Proof.
  destruct (filter q l) as [|a l'] eqn:Hf.
  - right. intros b Hb Hq. by eapply (filter_nil_not_elem_of q l b).
  - left. exists a. split; [done|].
    assert (a ∈ filter q l) as Ha by (rewrite Hf; left).
    apply list_elem_of_filter in Ha. tauto.
Qed.

Section AccountFacts.
Context `{Externals} `{Crypto}.

Lemma register_fresh data s hashed :
  (∀ d, d ∈ users s → email (ud_user d) ≠ c_email data) →
  hashpw (c_password data) (gensalt (a_salt_draws s)) = Some hashed →
  register data s =
  (inr (mk_AuthResponse
          (jwt_encode (uuid4 (a_uuid_draws s))
             (DateTime.add_days 7 (utcnow (S (a_clock_reads s)))))
          (registered_user data s)),
   mk_Accounts (users s ++ [registered_doc data s hashed])
     (S (S (a_clock_reads s))) (S (a_uuid_draws s)) (S (a_salt_draws s))).
Proof.
  intros Hfresh Hhash. unfold register, Auth.bind at 1, find_one_user at 1.
  rewrite head_filter_None by done.
  unfold Auth.bind at 1, a_new_uuid at 1, Auth.bind at 1, a_now at 1.
  unfold Auth.bind at 1, hash_password, Auth.bind at 1, a_gensalt at 1.
  cbn [a_salt_draws]. rewrite Hhash. reflexivity.
Qed.

(** The ValueError of bcrypt escapes [register] before anything is stored. *)
Lemma register_unhashed data s :
  (∀ d, d ∈ users s → email (ud_user d) ≠ c_email data) →
  hashpw (c_password data) (gensalt (a_salt_draws s)) = None →
  register data s = (inl Unhandled, after_failed_hash s).
Proof.
  intros Hfresh Hhash. unfold register, Auth.bind at 1, find_one_user at 1.
  rewrite head_filter_None by done.
  unfold Auth.bind at 1, a_new_uuid at 1, Auth.bind at 1, a_now at 1.
  unfold Auth.bind at 1, hash_password, Auth.bind at 1, a_gensalt at 1.
  cbn [a_salt_draws]. rewrite Hhash. reflexivity.
Qed.

End AccountFacts.

(** X19.  [register] refuses an email that some user already has with HTTP
    400 and leaves the accounts unchanged.  For a new email and a password
    that bcrypt hashes, it appends exactly one user document with a fresh
    uid, the name, department and role exactly as sent (the role is not
    checked: a caller may register as Admin), and the bcrypt hash of the
    password; the answer carries a token for the new uid.  When bcrypt
    raises instead (recent versions refuse a password of more than 72
    bytes), nothing catches the exception: the answer is HTTP 500 and no
    user document is written.  Emails that were pairwise distinct stay
    so. *)
Theorem register_spec `{Externals} `{Crypto} data s :
  ((∃ d, d ∈ users s ∧ email (ud_user d) = c_email data) →
   register data s = (inl (mk_HTTPException 400 "Email already registered"), s)) ∧
  (∀ hashed,
   (∀ d, d ∈ users s → email (ud_user d) ≠ c_email data) →
   hashpw (c_password data) (gensalt (a_salt_draws s)) = Some hashed →
   register data s =
     (inr (mk_AuthResponse
             (jwt_encode (uuid4 (a_uuid_draws s))
                (DateTime.add_days 7 (utcnow (S (a_clock_reads s)))))
             (mk_User (uuid4 (a_uuid_draws s)) (c_email data) (c_name data) (c_role data)
                (c_department data))),
      mk_Accounts
        (users s ++
           [mk_UserDoc
              (mk_User (uuid4 (a_uuid_draws s)) (c_email data) (c_name data) (c_role data)
                 (c_department data))
              (DateTime.isoformat (utcnow (a_clock_reads s)))
              hashed])
        (S (S (a_clock_reads s))) (S (a_uuid_draws s)) (S (a_salt_draws s)))) ∧
  ((∀ d, d ∈ users s → email (ud_user d) ≠ c_email data) →
   hashpw (c_password data) (gensalt (a_salt_draws s)) = None →
   fst (register data s) = inl (mk_HTTPException 500 "Internal Server Error") ∧
   users (snd (register data s)) = users s) ∧
  (NoDup ((λ d, email (ud_user d)) <$> users s) →
   NoDup ((λ d, email (ud_user d)) <$> users (snd (register data s)))).
Proof.
  split; [|split; [|split]].
  - intros Htaken. unfold register, Auth.bind at 1, find_one_user at 1.
    destruct (head_filter_Some _ _ Htaken) as (a & -> & _). reflexivity.
  - intros hashed. apply register_fresh.
  - intros Hfresh Hhash. by rewrite register_unhashed.
  - intros Hnd.
    destruct (head_filter_cases (λ d, email (ud_user d) = c_email data) (users s))
      as [(a & Ha & _) | Hfresh].
    + unfold register, Auth.bind at 1, find_one_user at 1. rewrite Ha. exact Hnd.
    + destruct (hashpw (c_password data) (gensalt (a_salt_draws s))) as [hashed|] eqn:Hhash.
      * rewrite (register_fresh data s hashed) by done.
        cbn [snd users]. rewrite fmap_app. apply NoDup_app. split; [done|].
        split; [|apply NoDup_singleton].
        intros e He Hin. apply list_elem_of_singleton in Hin. subst e.
        apply list_elem_of_fmap in He as (d & Heq & Hd). by apply (Hfresh d).
      * by rewrite register_unhashed.
Qed.

(** X19, witness: Ada registers as Admin in an empty store, then again;
    Bob's password of 73 bytes is refused by the hash. *)
Lemma register_spec_witness :
  let s1 := snd (@register Demo.externals DemoAuth.crypto DemoAuth.ada DemoAuth.empty) in
  @register Demo.externals DemoAuth.crypto DemoAuth.ada DemoAuth.empty =
    (inr (mk_AuthResponse "jwt.uuid-0000"
            (mk_User "uuid-0000" "ada@campus.example" "Ada" "Admin" None)),
     mk_Accounts
       [mk_UserDoc (mk_User "uuid-0000" "ada@campus.example" "Ada" "Admin" None)
          "2026-11-03T10:00:00+00:00" "salt$s3cret"] 2 1 1) ∧
  @register Demo.externals DemoAuth.crypto DemoAuth.ada s1 =
    (inl (mk_HTTPException 400 "Email already registered"), s1) ∧
  (fst (@register Demo.externals DemoAuth.crypto DemoAuth.bob s1) =
     inl (mk_HTTPException 500 "Internal Server Error") ∧
   users (snd (@register Demo.externals DemoAuth.crypto DemoAuth.bob s1)) = users s1) ∧
  NoDup ((λ d, email (ud_user d)) <$> users s1).
Proof.
  cbv zeta.
  destruct (@register_spec Demo.externals DemoAuth.crypto DemoAuth.ada DemoAuth.empty)
    as (_ & Hfresh & _ & Hdistinct).
  destruct (@register_spec Demo.externals DemoAuth.crypto DemoAuth.ada
              (snd (@register Demo.externals DemoAuth.crypto DemoAuth.ada DemoAuth.empty)))
    as (Htaken & _ & _ & _).
  destruct (@register_spec Demo.externals DemoAuth.crypto DemoAuth.bob
              (snd (@register Demo.externals DemoAuth.crypto DemoAuth.ada DemoAuth.empty)))
    as (_ & _ & Hlong & _).
  split; [|split; [|split]].
  - apply (Hfresh "salt$s3cret"); [|reflexivity].
    intros d Hd. by apply elem_of_nil in Hd.
  - apply Htaken. eexists. split; [left | reflexivity].
  - apply Hlong; [|reflexivity].
    intros d Hd. apply list_elem_of_singleton in Hd as ->. discriminate.
  - apply Hdistinct. apply NoDup_nil_2.
Defined.



(** X21.  Registration and login fit together: when bcrypt hashes the
    password and accepts it against that hash, a user who registered with
    a new email can log in with the same email and password right away,
    and gets back the very user record the registration returned; the
    login writes no user document. *)
Theorem register_then_login `{Externals} `{Crypto} data s hashed :
  (∀ d, d ∈ users s → email (ud_user d) ≠ c_email data) →
  hashpw (c_password data) (gensalt (a_salt_draws s)) = Some hashed →
  checkpw (c_password data) hashed = Some true →
  ∃ registered tok1 tok2 s1 s2,
    register data s = (inr (mk_AuthResponse tok1 registered), s1) ∧
    login (mk_UserLogin (c_email data) (c_password data)) s1 =
      (inr (mk_AuthResponse tok2 registered), s2) ∧
    role registered = c_role data ∧
    users s2 = users s1.
Proof.
  intros Hfresh Hhash Hlaw. do 5 eexists.
  split; [by apply (register_fresh data s hashed)|].
  split; [|split; [reflexivity|]].
  - unfold login, Auth.bind at 1, find_one_user at 1. cbn [users l_email l_password].
    rewrite (head_filter_first _ (users s) (registered_doc data s hashed)); [|done|done].
    cbn [registered_doc ud_password ud_user].
    unfold Auth.bind at 1, verify_password.
    rewrite Hlaw. reflexivity.
  - reflexivity.
Qed.

(** X21, witness: Ada registers and logs in. *)
Lemma register_then_login_witness :
  ∃ registered tok1 tok2 s1 s2,
    @register Demo.externals DemoAuth.crypto DemoAuth.ada DemoAuth.empty =
      (inr (mk_AuthResponse tok1 registered), s1) ∧
    @login Demo.externals DemoAuth.crypto (mk_UserLogin "ada@campus.example" "s3cret") s1 =
      (inr (mk_AuthResponse tok2 registered), s2) ∧
    role registered = "Admin" ∧
    users s2 = users s1.
Proof.
  apply (@register_then_login Demo.externals DemoAuth.crypto DemoAuth.ada DemoAuth.empty
           "salt$s3cret").
  - intros d Hd. by apply elem_of_nil in Hd.
  - reflexivity.
  - reflexivity.
Defined.

(** X22.  [get_current_user] turns a token back into a user: a token the
    JWT library rejects gives HTTP 401 "Invalid token"; an accepted token
    whose uid no user has gives HTTP 401 "User not found"; and when the
    library accepts the token [register] has just issued, and the new uid
    was not in use, the caller is resolved to the document of the user who
    registered, with the role sent at registration. *)
Theorem token_resolves_to_user `{Externals} `{Crypto} (credentials : string) data s :
  (jwt_decode credentials (utcnow (a_clock_reads s)) = None →
   fst (get_current_user credentials s) = inl (mk_HTTPException 401 "Invalid token")) ∧
  (∀ payload_uid,
     jwt_decode credentials (utcnow (a_clock_reads s)) = Some payload_uid →
     (∀ d, d ∈ users s → uid (ud_user d) ≠ payload_uid) →
     fst (get_current_user credentials s) = inl (mk_HTTPException 401 "User not found")) ∧
  (∀ tok registered s1,
     register data s = (inr (mk_AuthResponse tok registered), s1) →
     (∀ d, d ∈ users s → uid (ud_user d) ≠ uid registered) →
     jwt_decode tok (utcnow (a_clock_reads s1)) = Some (uid registered) →
     ∃ doc, fst (get_current_user tok s1) = inr doc ∧
            get_me doc = registered ∧
            role (get_me doc) = c_role data).
Proof.
  split; [|split].
  - intros Hbad. unfold get_current_user, Auth.bind at 1, decode_jwt_token,
      Auth.bind at 1, a_now at 1. by rewrite Hbad.
  - intros payload_uid Hok Hnone. unfold get_current_user, Auth.bind at 1,
      decode_jwt_token, Auth.bind at 1, a_now at 1. rewrite Hok.
    unfold Auth.ret, Auth.bind at 1, find_one_user at 1. cbn [users].
    by rewrite head_filter_None.
  - intros tok registered s1 Hreg Hunused Hok.
    destruct (head_filter_cases (λ d, email (ud_user d) = c_email data) (users s))
      as [(a & Ha & _) | Hfresh].
    { unfold register, Auth.bind at 1, find_one_user at 1 in Hreg.
      rewrite Ha in Hreg. discriminate Hreg. }
    destruct (hashpw (c_password data) (gensalt (a_salt_draws s))) as [hashed|] eqn:Hhash;
      [|rewrite register_unhashed in Hreg by done; discriminate Hreg].
    rewrite (register_fresh data s hashed) in Hreg by done.
    remember (DateTime.add_days 7 (utcnow (S (a_clock_reads s)))) as expiry eqn:Hexp.
    clear Hexp.
    assert (registered = registered_user data s) as ->.
    { apply (f_equal (λ r, match fst r with inr a => user a | inl _ => registered end)) in Hreg.
      by cbn [fst user] in Hreg. }
    assert (s1 = mk_Accounts (users s ++ [registered_doc data s hashed])
                   (S (S (a_clock_reads s))) (S (a_uuid_draws s)) (S (a_salt_draws s))) as ->.
    { apply (f_equal snd) in Hreg. by cbn [snd] in Hreg. }
    exists (registered_doc data s hashed). split; [|by split].
    unfold get_current_user, Auth.bind at 1, decode_jwt_token, Auth.bind at 1, a_now at 1.
    rewrite Hok. unfold Auth.ret, Auth.bind at 1, find_one_user at 1. cbn [users].
    by rewrite (head_filter_first _ (users s) (registered_doc data s hashed)).
Qed.

(** X22, witness: Ada's token, a forged token, and a token for a uid
    nobody has. *)
Lemma token_resolves_to_user_witness :
  let s1 := snd (@register Demo.externals DemoAuth.crypto DemoAuth.ada DemoAuth.empty) in
  fst (@get_current_user Demo.externals DemoAuth.crypto "forged" s1) =
    inl (mk_HTTPException 401 "Invalid token") ∧
  fst (@get_current_user Demo.externals DemoAuth.crypto "jwt.nobody" s1) =
    inl (mk_HTTPException 401 "User not found") ∧
  ∃ doc, fst (@get_current_user Demo.externals DemoAuth.crypto "jwt.uuid-0000" s1) = inr doc ∧
         get_me doc = mk_User "uuid-0000" "ada@campus.example" "Ada" "Admin" None ∧
         role (get_me doc) = "Admin".
Proof.
  cbv zeta.
  set (s1 := snd (@register Demo.externals DemoAuth.crypto DemoAuth.ada DemoAuth.empty)).
  destruct (@token_resolves_to_user Demo.externals DemoAuth.crypto "forged"
              DemoAuth.ada s1) as (Hforged & _ & _).
  destruct (@token_resolves_to_user Demo.externals DemoAuth.crypto "jwt.nobody"
              DemoAuth.ada s1) as (_ & Hnobody & _).
  destruct (@token_resolves_to_user Demo.externals DemoAuth.crypto "forged"
              DemoAuth.ada DemoAuth.empty) as (_ & _ & Hissued).
  split; [by apply Hforged|]. split.
  - apply (Hnobody "nobody"); [reflexivity|].
    intros d Hd. subst s1. apply list_elem_of_singleton in Hd as ->. discriminate.
  - apply (Hissued "jwt.uuid-0000" _ s1); [reflexivity | | reflexivity].
    intros d Hd. by apply elem_of_nil in Hd.
Defined.

(** ** Fields that never change *)

Section FixedFacts.
Context `{Externals}.

Lemma sweep_loop_fmap {B} (g : Issue → B) found n w :
  (∀ r s a, g (set_role_status r s a) = g a) →
  g <$> issues (snd (sweep_loop found n w)) = g <$> issues w.
Proof.
  intros Hg. revert n w. induction found as [|j found IH]; intros n w; [done|].
  destruct (decide (below_ceiling j)) as [Hlt | Hge].
  - destruct (getitem_next _ _ Hlt) as (next_role & Hnext & _).
    rewrite (sweep_loop_escalate j found n w next_role Hlt Hnext), IH. simpl.
    by apply update_first_fmap.
  - by rewrite (sweep_loop_skip j found n w Hge).
Qed.

End FixedFacts.

(** X23.  No route rewrites what was fixed when an issue was created: the
    id, category, summary, original text, urgency score, creation time,
    SLA deadline, token and evidence list of every stored issue are the
    same, position by position, after [submit_feedback] (which may append
    one issue), [add_update], [escalate_issue], [update_status] and
    [check_escalation], for every caller and input.  In particular a
    deadline is never extended. *)
Theorem routes_keep_fixed_fields `{Externals} w :
  (∀ fb u, fixed_fields <$> take (length (issues w)) (issues (snd (submit_feedback fb u w))) =
           fixed_fields <$> issues w) ∧
  (∀ (x : string) upd u,
     fixed_fields <$> issues (snd (add_update x upd u w)) = fixed_fields <$> issues w) ∧
  (∀ (x : string) req u,
     fixed_fields <$> issues (snd (escalate_issue x req u w)) = fixed_fields <$> issues w) ∧
  (∀ (x s : string) u,
     fixed_fields <$> issues (snd (update_status x s u w)) = fixed_fields <$> issues w) ∧
  fixed_fields <$> issues (snd (check_escalation w)) = fixed_fields <$> issues w.
Proof.
  split; [|split; [|split; [|split]]].
  - intros fb u. destruct (decide (role u = "Student")) as [Hu | Hu].
    + rewrite submit_feedback_eq by done. cbv zeta.
      destruct (negb _); [|destruct (List.find _ _) as [e|]];
        cbn [snd issues after_moderation set_issues].
      * by rewrite firstn_all.
      * rewrite <- (update_first_length (λ i, issue_id i = issue_id e) inc_frequency (issues w)).
        rewrite firstn_all. by apply update_first_fmap.
      * by rewrite take_app_length.
    + unfold submit_feedback. rewrite decide_True by done. cbn [snd raise].
      by rewrite firstn_all.
  - intros x upd u. unfold add_update. case_decide; [done|].
    unfold bind at 1, find_one_issue at 1. destruct (head _); [|done].
    simpl. by apply update_first_fmap.
  - intros x req u.
    destruct (escalate_issue_issues x req u w)
      as [-> | (found & next_role & _ & _ & ->)]; [done|].
    by apply update_first_fmap.
  - intros x s u. unfold update_status. case_decide; [done|].
    simpl. by apply update_first_fmap.
  - rewrite check_escalation_unfold. by rewrite sweep_loop_fmap.
Qed.
